(** * The advertisement engine of the index provider

    A shallow embedding of the engine (package [engine]: the index of
    entries, the building, chaining and publishing of advertisements)
    and of the [list] command (package [main]), and the properties of
    the specification checked against them.

    Layout: the data model and the collaborators of the engine; the
    effects of the engine as programs over its primitive actions; the
    functions of the engine, the helpers on the datastore first; the
    interpreters of these programs (one call running alone, and calls
    running together); the [list] command; a concrete instance on which
    the examples are evaluated, and the same instance with the keys of
    go-datastore; more of the engine and of the command, for the
    further properties; and then the theorems, C1 to C10, and the
    further properties of the code, X1 to X23. *)

From Stdlib Require Import String List Bool Arith Lia.
From stdpp Require Import base option list gmap strings.

Open Scope string_scope.

(** ** Data model *)

Definition bytes := string.
(** [datastore.Key] wraps a string. *)
Definition Key := string.
(** [peer.ID] is a Go string type. *)
Definition peerID := string.
Definition Multiaddr := string.
Definition Multihash := string.
Definition URL := string.
Definition PrivKey := string.

(** [cid.Cid]: [cid.Undef] is its zero value; every other value carries
    the binary form of a CID. *)
Inductive Cid :=
| CidUndef
| CidOf (raw : string).

#[global] Instance Cid_eq_dec : EqDecision Cid.
Proof. solve_decision. Defined.

#[global] Instance Cid_countable : Countable Cid.
Proof.
  refine (inj_countable'
            (fun c => match c with CidUndef => None | CidOf r => Some r end)
            (fun o => match o with None => CidUndef | Some r => CidOf r end) _).
  intros []; reflexivity.
Defined.

(** Go error values.  The sentinels are compared by identity in the
    source; [Errorf] is [fmt.Errorf] with one error argument, and
    [wraps] tells whether the verb is [%w] (the argument can be found by
    [errors.Is]) or [%s] (only its text is kept). *)
Inductive error :=
| ErrNotFound
| ErrNoMultihashLister
| ErrAlreadyAdvertised
| ErrContextIDNotFound
| ErrNew (msg : string)
| Errorf (format : string) (wraps : bool) (arg : error).

#[global] Instance error_eq_dec : EqDecision error.
Proof. solve_decision. Defined.

(** [errors.Is err target]. *)
Fixpoint errorsIs (err target : error) : bool :=
  bool_decide (err = target)
  || match err with
     | Errorf _ true inner => errorsIs inner target
     | _ => false
     end.

(** The Go pair (value, error) of a call into a collaborator: the value
    is meaningful only when the error is nil. *)
Inductive result (A : Type) :=
| Ok (a : A)
| Err (e : error).
Arguments Ok {A} a.
Arguments Err {A} e.

(** [metadata.Metadata]: the list of its protocols.  [metadata.Default.New()]
    and the zero value [metadata.Metadata{}] have no protocol. *)
Record Protocol := mkProtocol { protoID : N; payload : bytes }.
Definition Metadata := list Protocol.
Definition emptyMetadata : Metadata := [].

(** [schema.Advertisement]. *)
Record Advertisement := mkAdvertisement {
  PreviousID : option Cid;
  Provider : string;
  Addresses : list string;
  Signature : bytes;
  Entries : Cid;
  ContextID : bytes;
  AdMetadata : bytes;
  IsRm : bool
}.

#[global] Instance Advertisement_eq_dec : EqDecision Advertisement.
Proof. solve_decision. Defined.

Definition withPreviousID (adv : Advertisement) (l : option Cid) : Advertisement :=
  mkAdvertisement l (Provider adv) (Addresses adv) (Signature adv)
                  (Entries adv) (ContextID adv) (AdMetadata adv) (IsRm adv).

Definition withSignature (adv : Advertisement) (sig : bytes) : Advertisement :=
  mkAdvertisement (PreviousID adv) (Provider adv) (Addresses adv) sig
                  (Entries adv) (ContextID adv) (AdMetadata adv) (IsRm adv).

(** [providerAndContext], the value of the [cidToProviderAndKey] rows. *)
Record providerAndContext := mkProviderAndContext {
  pcProvider : bytes;
  pcContextID : bytes
}.

(** [provider.MultihashLister]: the iterator it returns is consumed once
    by the chunker, so it is represented by the list it yields. *)
Definition MultihashLister := peerID -> bytes -> result (list Multihash).

(** [dagsync.Publisher], an interface: a record of its methods. *)
Record Publisher := mkPublisher {
  pubAddrs : list Multiaddr;
  pubSetRoot : Cid -> option error;
  pubUpdateRoot : Cid -> option error;
  pubUpdateRootWithAddrs : Cid -> list Multiaddr -> option error;
  pubClose : option error
}.

(** [announce.Sender] values built by [newPublisher]. *)
Inductive Sender :=
| HttpSender (urls : list URL) (id : peerID)
| P2pSender (topicName : string).

(** [PublisherKind], a Go string type: its three constants, and any
    other value, kept with its text. *)
Inductive PublisherKind :=
| NoPublisher
| DataTransferPublisher
| HttpPublisher
| OtherPublisherKind (name : string).

#[global] Instance PublisherKind_eq_dec : EqDecision PublisherKind.
Proof. solve_decision. Defined.

(** [host.Host]: what the engine reads of it. *)
Record Host := mkHost { hostID : peerID; hostAddrs : list Multiaddr }.

(** [peer.AddrInfo]. *)
Record AddrInfo := mkAddrInfo { aiID : peerID; aiAddrs : list Multiaddr }.

(** The fields of [options] that the functions below read. *)
Record options := mkOptions {
  key : PrivKey;
  provider : AddrInfo;
  h : option Host;
  pubKind : PublisherKind;
  pubHttpAnnounceAddrs : list Multiaddr;
  pubHttpListenAddr : string;
  pubTopicName : string;
  pubDT : bool;
  announceURLs : list URL
}.

(** ** Collaborators

    Functions of the libraries the engine calls (go-datastore, go-cid,
    go-libipni, go-libp2p, encoding/json).  They are not part of the
    repository; the engine is verified for every implementation of
    them, and the properties it needs of them are hypotheses of the
    theorems that need them.  The constructors of the publishers give
    the pointer and the error they return, as a Go pair: the engine
    makes an interface of the pointer whether or not there is an
    error. *)
Class Externals := {
  NewKey : string -> Key;
  CidBytes : Cid -> bytes;
  CidFromBytes : bytes -> result Cid;
  CidString : Cid -> string;
  NoEntries : Cid;
  PeerString : peerID -> string;
  PeerMarshal : peerID -> result bytes;
  MultiaddrString : Multiaddr -> string;
  MetadataEqual : Metadata -> Metadata -> bool;
  MetadataMarshalBinary : Metadata -> result bytes;
  MetadataUnmarshalBinary : bytes -> Metadata * option error;
  JsonMarshal : providerAndContext -> result bytes;
  JsonUnmarshal : bytes -> result providerAndContext;
  AdSign : Advertisement -> PrivKey -> result bytes;
  AdValidate : Advertisement -> option error;
  AdToNode : Advertisement -> option error;
  LinkOf : Advertisement -> Cid;
  NewCachedEntriesChunker : option error;
  Chunk : list Multihash -> result (option Cid);
  httpsenderNew : list URL -> peerID -> result Sender;
  p2psenderNew : Host -> string -> result Sender;
  httpsyncNewPublisher : string -> PrivKey -> list Sender -> Publisher * option error;
  dtsyncNewPublisher : option Host -> string -> list Sender -> Publisher * option error;
  dtsyncNewPublisherFromExisting : option Host -> string -> list Sender
                                   -> Publisher * option error
}.

(** ** Effects

    The primitive actions of the engine: calls on the datastore, on the
    link system and on the publisher, log lines, reads and writes of the
    fields of [Engine] that change after [New], the mutex [cblk], and a
    run-time panic. *)
Inductive level := Debug | Info | Warn | Error.

#[global] Instance level_eq_dec : EqDecision level.
Proof. solve_decision. Defined.

Inductive action :=
| DsGet (k : Key)
| DsPut (k : Key) (v : bytes)
| DsDelete (k : Key)
| LsysStore (adv : Advertisement)
| Log (l : level) (msg : string)
| GetLister
| SetLister (l : option MultihashLister)
| GetPublisher
| SetPublisher (p : option Publisher)
| CallSetRoot (p : Publisher) (c : Cid)
| CallUpdateRoot (p : Publisher) (c : Cid)
| CallUpdateRootWithAddrs (p : Publisher) (c : Cid) (addrs : list Multiaddr)
| CblkLock
| CblkUnlock
| Panic.

Definition answer (a : action) : Type :=
  match a with
  | DsGet _ => result bytes
  | DsPut _ _ | DsDelete _ => option error
  | LsysStore _ => result Cid
  | Log _ _ => unit
  | GetLister => option MultihashLister
  | GetPublisher => option Publisher
  | SetLister _ | SetPublisher _ => unit
  | CallSetRoot _ _ | CallUpdateRoot _ _ | CallUpdateRootWithAddrs _ _ _ => option error
  | CblkLock | CblkUnlock => unit
  | Panic => Empty_set
  end.

Inductive Prog (A : Type) : Type :=
| Ret (a : A)
| Act (a : action) (k : answer a -> Prog A).
Arguments Ret {A} a.
Arguments Act {A} a k.

Fixpoint bind {A B : Type} (m : Prog A) (f : A -> Prog B) : Prog B :=
  match m with
  | Ret a => f a
  | Act a k => Act a (fun x => bind (k x) f)
  end.

#[global] Instance Prog_ret : MRet Prog := @Ret.
#[global] Instance Prog_bind : MBind Prog := fun A B f m => bind m f.

Definition act (a : action) : Prog (answer a) := Act a Ret.

Definition panic {A : Type} : Prog A :=
  Act Panic (fun x : Empty_set => match x with end).

Definition logMsg (l : level) (msg : string) : Prog unit := act (Log l msg).

(** ** The engine

    Each function returns what the Go function returns; a Go pair
    (value, error) is a pair whose second component is [None] for a nil
    error.  [e] stands for the [*options] embedded in [Engine]. *)
Section Engine.
Context `{Externals}.
Variable e : options.

Definition keyToCidMapPrefix := "map/keyCid/".
Definition cidToKeyMapPrefix := "map/cidKey/".
Definition cidToProviderAndKeyMapPrefix := "map/cidProvAndKey/".
Definition keyToMetadataMapPrefix := "map/keyMD/".
Definition latestAdvKey := "sync/adv/".

Definition dsLatestAdvKey : Key := NewKey latestAdvKey.

Definition keyToCidKey (p : peerID) (contextID : bytes) : Key :=
  if decide (p = aiID (provider e))
  then NewKey (keyToCidMapPrefix +:+ contextID)
  else NewKey (keyToCidMapPrefix +:+ PeerString p +:+ "/" +:+ contextID).

Definition cidToKeyKey (c : Cid) : Key :=
  NewKey (cidToKeyMapPrefix +:+ CidString c).

Definition cidToProviderAndKeyKey (c : Cid) : Key :=
  NewKey (cidToProviderAndKeyMapPrefix +:+ CidString c).

Definition keyToMetadataKey (p : peerID) (contextID : bytes) : Key :=
  if decide (p = aiID (provider e))
  then NewKey (keyToMetadataMapPrefix +:+ contextID)
  else NewKey (keyToMetadataMapPrefix +:+ PeerString p +:+ "/" +:+ contextID).

Definition putKeyCidMap (p : peerID) (contextID : bytes) (c : Cid)
  : Prog (option error) :=
  err ← act (DsPut (keyToCidKey p contextID) (CidBytes c));
  match err with
  | Some err => mret (Some err)
  | None =>
    match PeerMarshal p with
    | Err err => mret (Some err)
    | Ok pB =>
      match JsonMarshal (mkProviderAndContext pB contextID) with
      | Err err => mret (Some err)
      | Ok m => act (DsPut (cidToProviderAndKeyKey c) m)
      end
    end
  end.

Definition getKeyCidMap (p : peerID) (contextID : bytes)
  : Prog (Cid * option error) :=
  r ← act (DsGet (keyToCidKey p contextID));
  match r with
  | Err err => mret (CidUndef, Some err)
  | Ok b =>
    match CidFromBytes b with
    | Ok d => mret (d, None)
    | Err err => mret (CidUndef, Some err)
    end
  end.

Definition deleteKeyCidMap (p : peerID) (contextID : bytes)
  : Prog (option error) :=
  act (DsDelete (keyToCidKey p contextID)).

Definition deleteCidKeyMap (c : Cid) : Prog (option error) :=
  err ← act (DsDelete (cidToProviderAndKeyKey c));
  match err with
  | Some err => mret (Some err)
  | None => act (DsDelete (cidToKeyKey c))
  end.

Definition getCidKeyMap (c : Cid)
  : Prog (option providerAndContext * option error) :=
  r ← act (DsGet (cidToKeyKey c));
  match r with
  | Ok val =>
    mret (Some (mkProviderAndContext (aiID (provider e)) val), None)
  | Err err =>
    if negb (errorsIs err ErrNotFound) then mret (None, Some err)
    else
      r ← act (DsGet (cidToProviderAndKeyKey c));
      match r with
      | Err err => mret (None, Some err)
      | Ok val =>
        match JsonUnmarshal val with
        | Err err => mret (None, Some err)
        | Ok pAndC =>
          if (String.length (pcProvider pAndC) =? 0)%nat
          then mret (Some (mkProviderAndContext (aiID (provider e))
                                                (pcContextID pAndC)), None)
          else mret (Some pAndC, None)
        end
      end
  end.

Definition putKeyMetadataMap (p : peerID) (contextID : bytes) (md : Metadata)
  : Prog (option error) :=
  match MetadataMarshalBinary md with
  | Err err => mret (Some err)
  | Ok data => act (DsPut (keyToMetadataKey p contextID) data)
  end.

Definition getKeyMetadataMap (p : peerID) (contextID : bytes)
  : Prog (Metadata * option error) :=
  r ← act (DsGet (keyToMetadataKey p contextID));
  match r with
  | Err err => mret (emptyMetadata, Some err)
  | Ok data =>
    let '(md, err) := MetadataUnmarshalBinary data in
    match err with
    | Some err => mret (md, Some err)
    | None => mret (md, None)
    end
  end.

Definition deleteKeyMetadataMap (p : peerID) (contextID : bytes)
  : Prog (option error) :=
  act (DsDelete (keyToMetadataKey p contextID)).

Definition putLatestAdv (advID : bytes) : Prog (option error) :=
  act (DsPut dsLatestAdvKey advID).

Definition getLatestAdCid : Prog (Cid * option error) :=
  r ← act (DsGet dsLatestAdvKey);
  match r with
  | Err err =>
    if errorsIs err ErrNotFound then mret (CidUndef, None)
    else mret (CidUndef, Some err)
  | Ok b =>
    match CidFromBytes b with
    | Ok c => mret (c, None)
    | Err err => mret (CidUndef, Some err)
    end
  end.

(** [return f(...)] for a constructor [f] that returns a pointer and an
    error, in a function that returns the interface [dagsync.Publisher]
    and an error: the pointer is converted to the interface, and the
    interface is not nil, whatever the pointer is, also when [f]
    returned it with an error. *)
Definition ifaceOf (r : Publisher * option error) : option Publisher * option error :=
  (Some r.1, r.2).

Definition newPublisher : Prog (option Publisher * option error) :=
  let build : Prog (option Publisher * option error) :=
    (* senders = append(senders, httpSender) when there are announce URLs *)
    s1 ← (if (length (announceURLs e) =? 0)%nat then mret (Ok (@nil Sender))
          else match h e with
               | None => panic
               | Some host =>
                 match httpsenderNew (announceURLs e) (hostID host) with
                 | Err err =>
                   mret (Err (Errorf "cannot create http announce sender: %w" true err))
                 | Ok httpSender => mret (Ok [httpSender])
                 end
               end);
    match s1 with
    | Err err => mret (None, Some err)
    | Ok senders =>
      (* a gossip pubsub sender when there is a libp2p host *)
      let s2 := match h e with
                | None => Ok senders
                | Some host =>
                  match p2psenderNew host (pubTopicName e) with
                  | Err err => Err err
                  | Ok p2pSender => Ok (senders ++ [p2pSender])%list
                  end
                end in
      match s2 with
      | Err err => mret (None, Some err)
      | Ok senders =>
        if decide (pubKind e = HttpPublisher)
        then mret (ifaceOf (httpsyncNewPublisher (pubHttpListenAddr e) (key e) senders))
        else if pubDT e
        then mret (ifaceOf (dtsyncNewPublisherFromExisting (h e) (pubTopicName e) senders))
        else mret (ifaceOf (dtsyncNewPublisher (h e) (pubTopicName e) senders))
      end
    end in
  match pubKind e with
  | NoPublisher =>
    logMsg Info "Remote announcements is disabled; all advertisements will only be store locally.";;
    mret (None, None)
  | DataTransferPublisher | HttpPublisher => build
  | OtherPublisherKind name =>
    mret (None, Some (ErrNew ("unknown publisher kind: " +:+ name)))
  end.

Definition Start : Prog (option error) :=
  match NewCachedEntriesChunker with
  | Some err => mret (Some err)
  | None =>
    '(pub, err) ← newPublisher;
    act (SetPublisher pub);;
    match err with
    | Some err =>
      logMsg Error "Failed to instantiate dagsync publisher";;
      mret (Some err)
    | None =>
      match pub with
      | None => mret None
      | Some pub =>
        '(adCid, err) ← getLatestAdCid;
        match err with
        | Some err =>
          mret (Some (Errorf "could not get latest advertisement cid: %w" true err))
        | None =>
          if decide (adCid = CidUndef) then mret None
          else
            err ← act (CallSetRoot pub adCid);
            match err with
            | Some err => mret (Some err)
            | None => mret None
            end
        end
      end
    end
  end.

Definition PublishLocal (adv : Advertisement) : Prog (Cid * option error) :=
  match AdValidate adv with
  | Some err => mret (CidUndef, Some err)
  | None =>
    match AdToNode adv with
    | Some err => mret (CidUndef, Some err)
    | None =>
      r ← act (LsysStore adv);
      match r with
      | Err err =>
        mret (CidUndef, Some (Errorf "cannot generate advertisement link: %s" false err))
      | Ok c =>
        logMsg Info "Stored ad in local link system";;
        err ← putLatestAdv (CidBytes c);
        match err with
        | Some err =>
          logMsg Error "Failed to update reference to the latest advertisement";;
          mret (CidUndef,
                Some (Errorf "failed to update reference to latest advertisement: %w" true err))
        | None =>
          logMsg Info "Updated reference to the latest advertisement successfully";;
          mret (c, None)
        end
      end
    end
  end.

Definition Publish (adv : Advertisement) : Prog (Cid * option error) :=
  '(c, err) ← PublishLocal adv;
  match err with
  | Some err =>
    logMsg Error "Failed to store advertisement locally";;
    mret (CidUndef, Some (Errorf "failed to publish advertisement locally: %w" true err))
  | None =>
    (* Only announce the advertisement CID if publisher is configured. *)
    pub ← act GetPublisher;
    match pub with
    | None => mret (c, None)
    | Some pub =>
      (if (length (announceURLs e) =? 0)%nat
       then logMsg Info "Announcing advertisement in pubsub channel"
       else logMsg Info "Announcing advertisement in pubsub channel and via http");;
      err ← (if (0 <? length (pubHttpAnnounceAddrs e))%nat
                && bool_decide (pubKind e = HttpPublisher)
             then act (CallUpdateRootWithAddrs pub c (pubHttpAnnounceAddrs e))
             else act (CallUpdateRoot pub c));
      match err with
      | Some err =>
        (* Do not consider a failure to announce an error, since
           publishing locally worked. *)
        logMsg Error "Failed to announce advertisement";;
        mret (c, None)
      | None => mret (c, None)
      end
    end
  end.

Definition latestAdToPublish : Prog (Cid * option error) :=
  pub ← act GetPublisher;
  match pub with
  | None =>
    (* Skip announcing the latest advertisement CID if there is no publisher. *)
    logMsg Info "Skipped announcing the latest: remote announcements are disabled.";;
    mret (CidUndef, None)
  | Some _ =>
    '(adCid, err) ← getLatestAdCid;
    match err with
    | Some err =>
      mret (CidUndef, Some (Errorf "failed to get latest advertisement cid: %w" true err))
    | None =>
      if decide (adCid = CidUndef)
      then logMsg Info "Skipped announcing the latest: no previously published advertisements.";;
           mret (CidUndef, None)
      else mret (adCid, None)
    end
  end.

Definition PublishLatest : Prog (Cid * option error) :=
  '(adCid, err) ← latestAdToPublish;
  match err with
  | Some err => mret (CidUndef, Some err)
  | None =>
    logMsg Info "Publishing latest advertisement";;
    pub ← act GetPublisher;
    match pub with
    | None => panic
    | Some pub =>
      err ← act (CallUpdateRoot pub adCid);
      match err with
      | Some err => mret (adCid, Some err)
      | None => mret (adCid, None)
      end
    end
  end.

Definition RegisterMultihashLister (mhl : option MultihashLister) : Prog unit :=
  logMsg Debug "Registering multihash lister in engine";;
  act CblkLock;;
  act (SetLister mhl);;
  act CblkUnlock.

(** [publishAdvForIndex] is given in four definitions: its two branches,
    what follows them, and the function itself.  A branch ends either
    with one of its own [return] statements ([inr], the pair returned)
    or by falling through to the rest of the function ([inl], the
    entries link and the metadata it goes on with). *)

(** The branch [if !isRm]: the link of the entries, from the lister and
    the chunker or from the forward index, and the metadata row. *)
Definition publishAdvForIndex_put (p : peerID) (contextID : bytes) (md : Metadata)
    (c : Cid) : Prog (Cid * Metadata + Cid * option error) :=
  logMsg Info "Creating advertisement";;
  r ← (if decide (c = CidUndef) then
         (* no previously-published ad for this context ID *)
         logMsg Info "Generating entries linked list for advertisement";;
         lister ← act GetLister;
         match lister with
         | None => mret (inr (CidUndef, Some ErrNoMultihashLister))
         | Some mhLister =>
           match mhLister p contextID with
           | Err err => mret (inr (CidUndef, Some err))
           | Ok mhIter =>
             match Chunk mhIter with
             | Err err =>
               mret (inr (CidUndef,
                          Some (Errorf "could not generate entries list: %s" false err)))
             | Ok lnk =>
               cidsLnk ← match lnk with
                         | None =>
                           logMsg Warn "chunking for context ID resulted in no link";;
                           mret NoEntries
                         | Some lnk => mret lnk
                         end;
               err ← putKeyCidMap p contextID cidsLnk;
               match err with
               | Some err =>
                 mret (inr (CidUndef,
                            Some (Errorf "failed to write provider + context id to entries cid mapping: %s" false err)))
               | None => mret (inl cidsLnk)
               end
             end
           end
         end
       else
         (* Lookup metadata for this providerID and contextID. *)
         '(prevMetadata, err) ← getKeyMetadataMap p contextID;
         let compare : Prog (Cid + Cid * option error) :=
           if MetadataEqual md prevMetadata
           then mret (inr (CidUndef, Some ErrAlreadyAdvertised))
           else mret (inl c) in
         match err with
         | Some err =>
           if decide (err = ErrNotFound)
           then logMsg Warn "No metadata for existing provider + context ID, generating new advertisement";;
                compare
           else mret (inr (CidUndef,
                           Some (Errorf "could not get metadata for provider + context id: %s" false err)))
         | None => compare
         end);
  match r with
  | inr early => mret (inr early)
  | inl cidsLnk =>
    err ← putKeyMetadataMap p contextID md;
    match err with
    | Some err =>
      mret (inr (CidUndef,
                 Some (Errorf "failed to write provider + context id to metadata mapping: %s" false err)))
    | None => mret (inl (cidsLnk, md))
    end
  end.

(** The branch [else]: the rows of the index are deleted, and the
    advertisement gets no entries and a valid empty metadata. *)
Definition publishAdvForIndex_rm (p : peerID) (contextID : bytes) (c : Cid)
  : Prog (Cid * Metadata + Cid * option error) :=
  logMsg Info "Creating removal advertisement";;
  if decide (c = CidUndef) then mret (inr (CidUndef, Some ErrContextIDNotFound))
  else
    err ← deleteKeyCidMap p contextID;
    match err with
    | Some err =>
      mret (inr (CidUndef,
                 Some (Errorf "failed to delete provider + context id to entries cid mapping: %s" false err)))
    | None =>
      err ← deleteCidKeyMap c;
      match err with
      | Some err =>
        mret (inr (CidUndef,
                   Some (Errorf "failed to delete entries cid to provider + context id mapping: %s" false err)))
      | None =>
        err ← deleteKeyMetadataMap p contextID;
        match err with
        | Some err =>
          mret (inr (CidUndef,
                     Some (Errorf "failed to delete provider + context id to metadata mapping: %s" false err)))
        | None => mret (inl (NoEntries, emptyMetadata))
        end
      end
    end.

(** From [md.MarshalBinary] to the end: the advertisement is assembled,
    linked to the latest one, signed and published. *)
Definition publishAdvForIndex_finish (p : peerID) (addrs : list Multiaddr)
    (contextID : bytes) (isRm : bool) (cidsLnk : Cid) (md : Metadata)
  : Prog (Cid * option error) :=
  match MetadataMarshalBinary md with
  | Err err => mret (CidUndef, Some err)
  | Ok mdBytes =>
    let stringAddrs := map MultiaddrString addrs in
    let adv := mkAdvertisement None (PeerString p) stringAddrs ""
                               cidsLnk contextID mdBytes isRm in
    (* Get the previous advertisement that was generated. *)
    '(prevAdvID, err) ← getLatestAdCid;
    match err with
    | Some err =>
      mret (CidUndef, Some (Errorf "could not get latest advertisement: %s" false err))
    | None =>
      adv ← (if decide (prevAdvID = CidUndef)
             then logMsg Info "Latest advertisement CID was undefined - no previous advertisement";;
                  mret adv
             else mret (withPreviousID adv (Some prevAdvID)));
      (* Sign the advertisement. *)
      match AdSign adv (key e) with
      | Err err => mret (CidUndef, Some err)
      | Ok sig => Publish (withSignature adv sig)
      end
    end
  end.

Definition publishAdvForIndex (p : peerID) (addrs : list Multiaddr)
    (contextID : bytes) (md : Metadata) (isRm : bool) : Prog (Cid * option error) :=
  '(c, err) ← getKeyCidMap p contextID;
  match (match err with
         | Some err => if decide (err = ErrNotFound) then None else Some err
         | None => None
         end) with
  | Some err =>
    mret (CidUndef,
          Some (Errorf "cound not not get entries cid by provider + context id: %s" false err))
  | None =>
    r ← (if negb isRm then publishAdvForIndex_put p contextID md c
         else publishAdvForIndex_rm p contextID c);
    match r with
    | inr early => mret early
    | inl (cidsLnk, md) => publishAdvForIndex_finish p addrs contextID isRm cidsLnk md
    end
  end.

Definition NotifyPut (prov : option AddrInfo) (contextID : bytes) (md : Metadata)
  : Prog (Cid * option error) :=
  let '(pID, addrs) :=
    match prov with
    | Some prov => (aiID prov, aiAddrs prov)
    | None => (aiID (provider e), aiAddrs (provider e))
    end in
  publishAdvForIndex pID addrs contextID md false.

Definition NotifyRemove (prov : peerID) (contextID : bytes)
  : Prog (Cid * option error) :=
  let prov := if decide (prov = "") then aiID (provider e) else prov in
  publishAdvForIndex prov [] contextID emptyMetadata true.

End Engine.

(** ** Interpreters *)

(** What a run leaves behind, most recent first. *)
Inductive event :=
| EvGet (k : Key)
| EvPut (k : Key) (v : bytes)
| EvDelete (k : Key)
| EvStore (adv : Advertisement)
| EvLog (l : level) (msg : string)
| EvSetLister
| EvSetPublisher
| EvSetRoot (c : Cid)
| EvUpdateRoot (c : Cid)
| EvUpdateRootWithAddrs (c : Cid) (addrs : list Multiaddr)
| EvLock
| EvUnlock.

#[global] Instance event_eq_dec : EqDecision event.
Proof. solve_decision. Defined.

(** The datastore [e.ds] (the rows of the index and the latest head; the
    chunker keeps its cache under a namespace of its own, which is not
    part of it), the nodes of the link system, the fields of [Engine]
    that change after [New], and the trace of the actions performed so
    far. *)
Record State := mkState {
  ds : gmap Key bytes;
  blocks : gmap Cid Advertisement;
  mhLister : option MultihashLister;
  publisher : option Publisher;
  cblk : bool;
  trace : list event
}.

(** Modelled from the spec: [mkLinkSystem] is not among the sources.  By
    section 4.3 the link system is the content-addressed store over the
    datastore, and [Store] writes the node under its CID; the nodes are
    kept apart from the rows of the index, as the map [blocks]. *)
Definition lsysStore `{Externals} (adv : Advertisement) (b : gmap Cid Advertisement)
  : Cid * gmap Cid Advertisement :=
  (LinkOf adv, <[LinkOf adv := adv]> b).

(** The failures of the storage during one run: a datastore call on a
    key, or the storing of a node, may fail with an error of the
    backend.  A call that fails changes nothing. *)
Record World := mkWorld {
  getFault : Key -> option error;
  putFault : Key -> option error;
  deleteFault : Key -> option error;
  storeFault : Advertisement -> option error
}.

Definition noFaults : World :=
  mkWorld (fun _ => None) (fun _ => None) (fun _ => None) (fun _ => None).

Definition record (ev : event) (s : State) : State :=
  mkState (ds s) (blocks s) (mhLister s) (publisher s) (cblk s) (ev :: trace s).

Definition setDs (d : gmap Key bytes) (s : State) : State :=
  mkState d (blocks s) (mhLister s) (publisher s) (cblk s) (trace s).

Definition setBlocks (b : gmap Cid Advertisement) (s : State) : State :=
  mkState (ds s) b (mhLister s) (publisher s) (cblk s) (trace s).

Definition setLister (l : option MultihashLister) (s : State) : State :=
  mkState (ds s) (blocks s) l (publisher s) (cblk s) (trace s).

Definition setPublisher (p : option Publisher) (s : State) : State :=
  mkState (ds s) (blocks s) (mhLister s) p (cblk s) (trace s).

Definition setCblk (b : bool) (s : State) : State :=
  mkState (ds s) (blocks s) (mhLister s) (publisher s) b (trace s).

Inductive reply (X : Type) :=
| Answer (x : X) (s : State)
| Panics
| Blocks.
Arguments Answer {X} x s.
Arguments Panics {X}.
Arguments Blocks {X}.

Inductive outcome (A : Type) :=
| Done (a : A) (s : State)
| Panicked (s : State)
| Blocked (s : State).
Arguments Done {A} a s.
Arguments Panicked {A} s.
Arguments Blocked {A} s.

Section Interpreters.
Context `{Externals}.
Variable w : World.

(** One action, performed atomically on the state.  Go's [sync.Mutex]
    is not reentrant: [Lock] on a held mutex waits, [Unlock] of a free
    one is a fatal error. *)
Definition exec (a : action) (s : State) : reply (answer a) :=
  match a return reply (answer a) with
  | DsGet k =>
    let s := record (EvGet k) s in
    match getFault w k with
    | Some err => Answer (Err err) s
    | None =>
      match ds s !! k with
      | Some v => Answer (Ok v) s
      | None => Answer (Err ErrNotFound) s
      end
    end
  | DsPut k v =>
    let s := record (EvPut k v) s in
    match putFault w k with
    | Some err => Answer (Some err) s
    | None => Answer None (setDs (<[k := v]> (ds s)) s)
    end
  | DsDelete k =>
    let s := record (EvDelete k) s in
    match deleteFault w k with
    | Some err => Answer (Some err) s
    | None => Answer None (setDs (delete k (ds s)) s)
    end
  | LsysStore adv =>
    let s := record (EvStore adv) s in
    match storeFault w adv with
    | Some err => Answer (Err err) s
    | None =>
      let '(c, b) := lsysStore adv (blocks s) in
      Answer (Ok c) (setBlocks b s)
    end
  | Log l msg => Answer tt (record (EvLog l msg) s)
  | GetLister => Answer (mhLister s) s
  | SetLister l => Answer tt (setLister l (record EvSetLister s))
  | GetPublisher => Answer (publisher s) s
  | SetPublisher p => Answer tt (setPublisher p (record EvSetPublisher s))
  | CallSetRoot p c => Answer (pubSetRoot p c) (record (EvSetRoot c) s)
  | CallUpdateRoot p c => Answer (pubUpdateRoot p c) (record (EvUpdateRoot c) s)
  | CallUpdateRootWithAddrs p c addrs =>
    Answer (pubUpdateRootWithAddrs p c addrs) (record (EvUpdateRootWithAddrs c addrs) s)
  | CblkLock =>
    if cblk s then Blocks else Answer tt (setCblk true (record EvLock s))
  | CblkUnlock =>
    if cblk s then Answer tt (setCblk false (record EvUnlock s)) else Panics
  | Panic => Panics
  end.

(** A call running alone, to its end. *)
Fixpoint run {A : Type} (p : Prog A) (s : State) : outcome A :=
  match p with
  | Ret a => Done a s
  | Act a k =>
    match exec a s with
    | Answer x s' => run (k x) s'
    | Panics => Panicked s
    | Blocks => Blocked s
    end
  end.

(** Calls running together: each action is atomic, and a schedule says
    which call performs how many actions next.  A call that has
    returned, or that cannot proceed, stays as it is. *)
Fixpoint steps {A : Type} (n : nat) (p : Prog A) (s : State) : Prog A * State :=
  match n with
  | O => (p, s)
  | S n =>
    match p with
    | Ret _ => (p, s)
    | Act a k =>
      match exec a s with
      | Answer x s' => steps n (k x) s'
      | Panics | Blocks => (p, s)
      end
    end
  end.

Fixpoint interleave {A : Type} (sched : list (nat * nat)) (pool : list (Prog A))
    (s : State) : list (Prog A) * State :=
  match sched with
  | [] => (pool, s)
  | (i, n) :: sched =>
    match pool !! i with
    | None => interleave sched pool s
    | Some p =>
      let '(p', s') := steps n p s in
      interleave sched (<[i := p']> pool) s'
    end
  end.

End Interpreters.

(** The actions a run added to the trace of [s], oldest first. *)
Definition newEvents (s s' : State) : list event :=
  rev (take (length (trace s') - length (trace s)) (trace s')).

(** [P] holds of every action of the program, on every path. *)
Fixpoint always {A : Type} (P : action -> Prop) (p : Prog A) : Prop :=
  match p with
  | Ret _ => True
  | Act a k => P a /\ forall x, always P (k x)
  end.

(** [Q] holds of every value the program returns, on every path. *)
Fixpoint returns {A : Type} (Q : A -> Prop) (p : Prog A) : Prop :=
  match p with
  | Ret a => Q a
  | Act a k => forall x, returns Q (k x)
  end.

(** An action that neither touches the mutex [cblk] nor panics. *)
Definition lockFree (a : action) : Prop :=
  a <> CblkLock /\ a <> CblkUnlock /\ a <> Panic.

(** The program runs to its end from [s], whoever holds the mutex, and
    neither takes nor releases it. *)
Definition runsUnlocked `{Externals} {A : Type} (w : World) (p : Prog A) (s : State) : Prop :=
  exists r s', run w p s = Done r s'
               /\ cblk s' = cblk s
               /\ ~ In EvLock (newEvents s s') /\ ~ In EvUnlock (newEvents s s').

(** The event an action leaves in the trace when it is performed. *)
Definition eventOf (a : action) : option event :=
  match a with
  | DsGet k => Some (EvGet k)
  | DsPut k v => Some (EvPut k v)
  | DsDelete k => Some (EvDelete k)
  | LsysStore adv => Some (EvStore adv)
  | Log l msg => Some (EvLog l msg)
  | SetLister _ => Some EvSetLister
  | SetPublisher _ => Some EvSetPublisher
  | CallSetRoot _ c => Some (EvSetRoot c)
  | CallUpdateRoot _ c => Some (EvUpdateRoot c)
  | CallUpdateRootWithAddrs _ c addrs => Some (EvUpdateRootWithAddrs c addrs)
  | CblkLock => Some EvLock
  | CblkUnlock => Some EvUnlock
  | GetLister | GetPublisher | Panic => None
  end.

(** An action that writes the datastore writes a key of [K]. *)
Definition writesWithin (K : Key -> Prop) (a : action) : Prop :=
  match a with
  | DsPut k _ | DsDelete k => K k
  | _ => True
  end.

(** A branch that returns early returns [cid.Undef] and an error. *)
Definition earlyIsError (r : Cid * Metadata + Cid * option error) : Prop :=
  forall c err, r = inr (c, err) -> c = CidUndef /\ err <> None.

(** An action that deletes no row. *)
Definition noDelete (a : action) : Prop :=
  match a with
  | DsDelete _ => False
  | _ => True
  end.

(** An action on the datastore, the log or the lister: it leaves the
    link system, the publisher and the mutex alone, and always returns. *)
Definition indexAction (a : action) : Prop :=
  match a with
  | DsGet _ | DsPut _ _ | DsDelete _ | Log _ _ | GetLister => True
  | _ => False
  end.

(** ** Sequences of notifications *)

Inductive call :=
| CallNotifyPut (prov : option AddrInfo) (contextID : bytes) (md : Metadata)
| CallNotifyRemove (prov : peerID) (contextID : bytes).

Section Calls.
Context `{Externals}.
Variable e : options.

Definition perform (c : call) : Prog (Cid * option error) :=
  match c with
  | CallNotifyPut prov contextID md => NotifyPut e prov contextID md
  | CallNotifyRemove prov contextID => NotifyRemove e prov contextID
  end.

(** The provider and the context ID a call works on. *)
Definition subject (c : call) : peerID * bytes :=
  match c with
  | CallNotifyPut (Some prov) contextID _ => (aiID prov, contextID)
  | CallNotifyPut None contextID _ => (aiID (provider e), contextID)
  | CallNotifyRemove prov contextID =>
    (if decide (prov = "") then aiID (provider e) else prov, contextID)
  end.

(** The calls of a sequence that succeed, one after the other, each
    under the storage failures of its own run: the CID each returned and
    the advertisement the link system holds for it. *)
Fixpoint published (calls : list (World * call)) (s : State)
  : list (Cid * Advertisement) :=
  match calls with
  | [] => []
  | (w, c) :: calls =>
    match run w (perform c) s with
    | Done (adCid, None) s' =>
      match blocks s' !! adCid with
      | Some adv => (adCid, adv) :: published calls s'
      | None => published calls s'
      end
    | Done (_, Some _) s' => published calls s'
    | Panicked _ | Blocked _ => []
    end
  end.

(** The forward index has no row for the provider and the context ID,
    and reading it does not fail. *)
Definition noEntriesCid (w : World) (s : State) (p : peerID) (contextID : bytes) : Prop :=
  getFault w (keyToCidKey e p contextID) = None
  /\ ds s !! keyToCidKey e p contextID = None.

(** The forward index holds the entries CID [c] for the provider and the
    context ID. *)
Definition entriesCid (w : World) (s : State) (p : peerID) (contextID : bytes)
    (c : Cid) : Prop :=
  getFault w (keyToCidKey e p contextID) = None
  /\ c <> CidUndef
  /\ exists b, ds s !! keyToCidKey e p contextID = Some b /\ CidFromBytes b = Ok c.

(** The metadata row of the provider and the context ID holds [prev]. *)
Definition storedMetadata (w : World) (s : State) (p : peerID) (contextID : bytes)
    (prev : Metadata) : Prop :=
  getFault w (keyToMetadataKey e p contextID) = None
  /\ exists data, ds s !! keyToMetadataKey e p contextID = Some data
                  /\ MetadataUnmarshalBinary data = (prev, None).

(** The rows of the index of a provider and a context ID, and the
    reverse rows of every CID, are kept under other keys than the
    latest-head row. *)
Definition headKeyApart (p : peerID) (contextID : bytes) : Prop :=
  keyToCidKey e p contextID <> dsLatestAdvKey
  /\ keyToMetadataKey e p contextID <> dsLatestAdvKey
  /\ forall c, cidToProviderAndKeyKey c <> dsLatestAdvKey
               /\ cidToKeyKey c <> dsLatestAdvKey.

(** The rows of the index a notification of a put writes for a provider
    and a context ID: the forward row, the row of the new reverse
    mapping of some CID, and the metadata row. *)
Definition newIndexKeys (p : peerID) (contextID : bytes) (k : Key) : Prop :=
  k = keyToCidKey e p contextID
  \/ (exists c, k = cidToProviderAndKeyKey c)
  \/ k = keyToMetadataKey e p contextID.

(** The rows of the index of a provider and a context ID, with the
    reverse rows, legacy and new, of every CID. *)
Definition indexKeys (p : peerID) (contextID : bytes) (k : Key) : Prop :=
  k = keyToCidKey e p contextID
  \/ k = keyToMetadataKey e p contextID
  \/ exists c, k = cidToProviderAndKeyKey c \/ k = cidToKeyKey c.

(** The four rows of the index a removal deletes: the forward row, the
    new and the legacy reverse rows of the entries CID, the metadata row. *)
Definition indexRows (p : peerID) (contextID : bytes) (c : Cid) : list Key :=
  [keyToCidKey e p contextID; cidToProviderAndKeyKey c; cidToKeyKey c;
   keyToMetadataKey e p contextID].

(** The link of an advertisement is a defined CID that survives the
    round trip through its bytes. *)
Definition linksRoundTrip : Prop :=
  forall adv, LinkOf adv <> CidUndef
              /\ CidFromBytes (CidBytes (LinkOf adv)) = Ok (LinkOf adv).

(** A failed read of the latest-head row is not mistaken for its
    absence. *)
Definition headFaultsShow (w : World) : Prop :=
  forall err, getFault w dsLatestAdvKey = Some err -> errorsIs err ErrNotFound = false.



(** The latest-head row, when there is one, holds the bytes of a CID. *)
Definition headReadable (s : State) : Prop :=
  forall b, ds s !! dsLatestAdvKey = Some b -> exists c, CidFromBytes b = Ok c.

(** The CID the latest-head row decodes to; [cid.Undef] without a row. *)
Definition headCid (s : State) : Cid :=
  match ds s !! dsLatestAdvKey with
  | None => CidUndef
  | Some b =>
    match CidFromBytes b with
    | Ok c => c
    | Err _ => CidUndef
    end
  end.

End Calls.

(** The [PreviousID] that chains an advertisement to the head [prev]. *)
Definition linkTo (prev : Cid) : option Cid :=
  if decide (prev = CidUndef) then None else Some prev.

(** Every advertisement of the list is chained to the one before it,
    the first one to [prev]. *)
Fixpoint chained (prev : Cid) (ads : list (Cid * Advertisement)) : Prop :=
  match ads with
  | [] => True
  | (c, adv) :: ads => PreviousID adv = linkTo prev /\ chained c ads
  end.

(** ** The [list] command (package [main]) *)

(** Modelled from the spec: [internal.ProviderClient] and its
    [EntriesIterator] are not among the sources.  By section 4.6 the
    client exposes [Entries] as a drainable sequence bounded by the
    configured recursion depth on the chunk chain: of the chain of the
    advertisement it holds the chunks within the depth bound, and knows
    whether the chain continues beyond them.  [Drain] walks the chunks
    it holds, counting them, and ends with the distinguished not-found
    condition when the chain continues beyond the limit. *)
Record EntriesIterator := mkEntriesIterator {
  held : list (list Multihash);
  continues : bool;
  chunkCount : nat
}.

Definition entriesWithin (depth : nat) (chain : list (list Multihash))
  : EntriesIterator :=
  mkEntriesIterator (take depth chain) (depth <? length chain)%nat 0.

Fixpoint drainChunks (chunks : list (list Multihash)) (continues : bool) (n : nat)
  : list Multihash * option error * nat :=
  match chunks with
  | [] => ([], if continues then Some ErrNotFound else None, n)
  | chunk :: chunks =>
    let '(mhs, err, n) := drainChunks chunks continues (S n) in
    ((chunk ++ mhs)%list, err, n)
  end.

Definition Drain (it : EntriesIterator)
  : list Multihash * option error * EntriesIterator :=
  let '(mhs, err, n) := drainChunks (held it) (continues it) (chunkCount it) in
  (mhs, err, mkEntriesIterator [] (continues it) n).

Definition ChunkCount (it : EntriesIterator) : nat := chunkCount it.

(** [internal.Advertisement], as [doGetAdvertisements] reads it. *)
Record ClientAdvertisement := mkClientAdvertisement {
  adID : Cid;
  adPreviousID : Cid;
  adProviderID : peerID;
  adAddresses : list Multiaddr;
  adIsRemove : bool;
  adEntries : EntriesIterator
}.

(** One [fmt.Printf] or [fmt.Println] of [doGetAdvertisements]. *)
Inductive line :=
| LineID (c : Cid)
| LinePreviousID (c : Cid)
| LineProviderID (p : peerID)
| LineAddresses (addrs : list Multiaddr)
| LineIsRemove (b : bool)
| LineEntries
| LineEntry (mh : Multihash)
| LineRule
| LineChunkCount (n : nat)
| LineTotalCount (n : nat)
| LineText (s : string).

Definition truncationNote :=
  "Note: More entries are available but not synced due to the configured entries recursion limit.".

(** [doGetAdvertisements]: what it prints and the error it returns.
    [got] is the result of [provClient.GetAdvertisement]. *)
Definition doGetAdvertisements (got : result ClientAdvertisement) (printEntries : bool)
  : list line * option error :=
  match got with
  | Err err => ([], Some err)
  | Ok ad =>
    let out := [LineID (adID ad); LinePreviousID (adPreviousID ad);
                LineProviderID (adProviderID ad); LineAddresses (adAddresses ad);
                LineIsRemove (adIsRemove ad); LineEntries] in
    let '(entries, err, it) := Drain (adEntries ad) in
    let proceed (entriesOutput : string) :=
      let out := if printEntries
                 then (out ++ map LineEntry entries ++ [LineRule])%list
                 else out in
      let out := (out ++ [LineChunkCount (ChunkCount it);
                          LineTotalCount (length entries)])%list in
      let out := if decide (entriesOutput = "") then out
                 else (out ++ [LineText entriesOutput])%list in
      (out, None) in
    match err with
    | Some err =>
      if decide (err = ErrNotFound) then proceed truncationNote
      else (out, Some err)
    | None => proceed ""
    end
  end.

(** ** A concrete instance

    An implementation of the collaborators on which the examples are
    evaluated: a key is the name behind a slash, a CID is serialised as
    its binary form, and an advertisement is addressed by its content. *)
Module Demo.

#[global] Instance Protocol_eq_dec : EqDecision Protocol.
Proof. solve_decision. Defined.

(** The part of [s] before the first [sep], and the part after it. *)
Fixpoint splitOn (sep : Ascii.ascii) (s : string) : string * string :=
  match s with
  | EmptyString => ("", "")
  | String a rest =>
    if Ascii.eqb a sep then ("", rest)
    else let '(l, r) := splitOn sep rest in (String a l, r)
  end.

Definition cidBytes (c : Cid) : bytes :=
  match c with
  | CidUndef => ""
  | CidOf raw => raw
  end.

Definition cidFromBytes (b : bytes) : result Cid :=
  if decide (b = "") then Err (ErrNew "cid: empty input") else Ok (CidOf b).

Definition linkOf (adv : Advertisement) : Cid :=
  CidOf ("ad(" +:+ ContextID adv +:+ "," +:+ AdMetadata adv +:+ ","
         +:+ (if IsRm adv then "rm" else "put") +:+ ","
         +:+ cidBytes (default CidUndef (PreviousID adv)) +:+ ")").

Definition marshalMetadata (md : Metadata) : result bytes :=
  match md with
  | [] => Ok ""
  | p :: _ => Ok (payload p)
  end.

Definition unmarshalMetadata (b : bytes) : Metadata * option error :=
  if decide (b = "") then ([], None) else ([mkProtocol 0 b], None).

Definition chunkOf (mhs : list Multihash) : result (option Cid) :=
  match mhs with
  | [] => Ok None
  | _ => Ok (Some (CidOf ("chunk(" +:+ String.concat "," mhs +:+ ")")))
  end.

Definition goodPublisher : Publisher :=
  mkPublisher ["/ip4/127.0.0.1/tcp/3104"] (fun _ => None) (fun _ => None)
              (fun _ _ => None) None.

(** A publisher whose announcements all fail. *)
Definition deafPublisher : Publisher :=
  mkPublisher [] (fun _ => None) (fun _ => Some (ErrNew "no route to host"))
              (fun _ _ => Some (ErrNew "no route to host")) None.

Definition externals : Externals := {|
  NewKey s := "/" +:+ s;
  CidBytes := cidBytes;
  CidFromBytes := cidFromBytes;
  CidString c := "b" +:+ cidBytes c;
  NoEntries := CidOf "no entries";
  PeerString p := p;
  PeerMarshal p := Ok p;
  MultiaddrString a := a;
  MetadataEqual a b := bool_decide (a = b);
  MetadataMarshalBinary := marshalMetadata;
  MetadataUnmarshalBinary := unmarshalMetadata;
  JsonMarshal pc := Ok (pcProvider pc +:+ "|" +:+ pcContextID pc);
  JsonUnmarshal b := let '(p, c) := splitOn (Ascii.ascii_of_nat 124) b in Ok (mkProviderAndContext p c);
  AdSign adv k := Ok ("signed by " +:+ k);
  AdValidate _ := None;
  AdToNode _ := None;
  LinkOf := linkOf;
  NewCachedEntriesChunker := None;
  Chunk := chunkOf;
  httpsenderNew urls id := Ok (HttpSender urls id);
  p2psenderNew _ topic := Ok (P2pSender topic);
  httpsyncNewPublisher _ _ _ := (goodPublisher, None);
  dtsyncNewPublisher _ _ _ := (goodPublisher, None);
  dtsyncNewPublisherFromExisting _ _ _ := (goodPublisher, None)
|}.

#[local] Existing Instance externals.

Definition me : AddrInfo := mkAddrInfo "12D3KooWme" ["/ip4/10.0.0.1/tcp/4001"].

Definition opts (kind : PublisherKind) : options :=
  mkOptions "k1" me (Some (mkHost "12D3KooWme" ["/ip4/10.0.0.1/tcp/4001"]))
            kind [] "0.0.0.0:3104" "/indexer/ingest/mainnet" false [].

Definition lister : MultihashLister :=
  fun _ contextID =>
    if decide (contextID = "empty") then Ok []
    else Ok ["1220aa" +:+ contextID; "1220bb" +:+ contextID].

(** A started engine that has published nothing. *)
Definition fresh (pub : option Publisher) : State :=
  mkState ∅ ∅ (Some lister) pub false [].

Definition md1 : Metadata := [mkProtocol 0 "bitswap"].
Definition md2 : Metadata := [mkProtocol 0 "graphsync"].

(** The link system fails to store the node. *)
Definition fullDisk : World :=
  mkWorld (fun _ => None) (fun _ => None) (fun _ => None)
          (fun _ => Some (ErrNew "no space left on device")).

(** The engine after [NotifyPut(nil, "ctxA", md1)] on a fresh one. *)
Definition advertised (pub : option Publisher) : State :=
  match run noFaults (NotifyPut (opts NoPublisher) None "ctxA" md1) (fresh pub) with
  | Done _ s => s
  | Panicked s | Blocked s => s
  end.

(** The same engine when the link system cannot store the removal
    advertisement of "ctxA". *)
Definition halfRemoved : State :=
  match run fullDisk (NotifyRemove (opts NoPublisher) "" "ctxA") (advertised None) with
  | Done _ s => s
  | Panicked s | Blocked s => s
  end.

(** The engine after the removal of "ctxA". *)
Definition removed : State :=
  match run noFaults (NotifyRemove (opts NoPublisher) "" "ctxA") (advertised None) with
  | Done _ s => s
  | Panicked s | Blocked s => s
  end.

(** A datastore written by a version of the engine that kept the legacy
    reverse index, next to a row of the new one. *)
Definition migrating : State :=
  mkState (<["/map/cidKey/bold" := "ctxOld"]>
             (<["/map/cidProvAndKey/bnew" := "|ctxNew"]> ∅))
          ∅ (Some lister) None false [].

(** Every read of the datastore fails. *)
Definition unplugged : World :=
  mkWorld (fun _ => Some (ErrNew "i/o timeout")) (fun _ => None) (fun _ => None)
          (fun _ => None).

(** An advertisement built by the caller. *)
Definition ad1 : Advertisement :=
  mkAdvertisement None "12D3KooWme" ["/ip4/10.0.0.1/tcp/4001"] "signed by k1"
                  (CidOf "chunk(1220aa,1220bb)") "ctxC" "bitswap" false.

(** Notifications of one provider, the second and the last of which
    change nothing and fail. *)
Definition calls : list (World * call) :=
  [(noFaults, CallNotifyPut None "ctxA" md1);
   (noFaults, CallNotifyPut None "ctxA" md1);
   (noFaults, CallNotifyPut None "ctxB" md2);
   (fullDisk, CallNotifyPut None "ctxC" md2);
   (noFaults, CallNotifyPut None "ctxA" md2);
   (noFaults, CallNotifyRemove "" "ctxA");
   (noFaults, CallNotifyRemove "" "ctxA")].

(** A chain of three entry chunks. *)
Definition chain3 : list (list Multihash) :=
  [["1220aa"; "1220bb"]; ["1220cc"; "1220dd"]; ["1220ee"]].

End Demo.

(** ** The keys of go-datastore

    [datastore.NewKey] cleans the string it is given, as [path.Clean]
    cleans a rooted path: the empty elements and the elements [.] are
    dropped, and an element [..] is dropped with the element before it,
    or alone at the root.  The instance below is the one of the examples
    with these keys. *)
Module Cleaned.

(** The elements of a path, between its slashes; [cur] is the element
    that is being read. *)
Fixpoint elements (s : string) (cur : string) : list string :=
  match s with
  | EmptyString => [cur]
  | String a rest =>
    if Ascii.eqb a (Ascii.ascii_of_nat 47) then cur :: elements rest ""
    else elements rest (cur +:+ String a "")
  end.

(** The elements kept so far, the last one first, and the next one. *)
Definition keep (kept : list string) (el : string) : list string :=
  if decide (el = "") then kept
  else if decide (el = ".") then kept
  else if decide (el = "..") then tail kept
  else el :: kept.

Definition Clean (s : string) : Key :=
  "/" +:+ String.concat "/" (rev (fold_left keep (elements s "") [])).

Definition externals : Externals := {|
  NewKey := Clean;
  CidBytes := @CidBytes Demo.externals;
  CidFromBytes := @CidFromBytes Demo.externals;
  CidString := @CidString Demo.externals;
  NoEntries := @NoEntries Demo.externals;
  PeerString := @PeerString Demo.externals;
  PeerMarshal := @PeerMarshal Demo.externals;
  MultiaddrString := @MultiaddrString Demo.externals;
  MetadataEqual := @MetadataEqual Demo.externals;
  MetadataMarshalBinary := @MetadataMarshalBinary Demo.externals;
  MetadataUnmarshalBinary := @MetadataUnmarshalBinary Demo.externals;
  JsonMarshal := @JsonMarshal Demo.externals;
  JsonUnmarshal := @JsonUnmarshal Demo.externals;
  AdSign := @AdSign Demo.externals;
  AdValidate := @AdValidate Demo.externals;
  AdToNode := @AdToNode Demo.externals;
  LinkOf := @LinkOf Demo.externals;
  NewCachedEntriesChunker := @NewCachedEntriesChunker Demo.externals;
  Chunk := @Chunk Demo.externals;
  httpsenderNew := @httpsenderNew Demo.externals;
  p2psenderNew := @p2psenderNew Demo.externals;
  httpsyncNewPublisher := @httpsyncNewPublisher Demo.externals;
  dtsyncNewPublisher := @dtsyncNewPublisher Demo.externals;
  dtsyncNewPublisherFromExisting := @dtsyncNewPublisherFromExisting Demo.externals
|}.

End Cleaned.

(** ** More of the engine: reading back and announcing *)

(** Modelled from the spec: [vanillaLinkSystem] is not among the sources.
    By section 4.3 [Load] gives back the node [Store] wrote under the
    CID; [missing] is the error of the storage for a CID it holds no
    node for.  The nodes of [blocks] are advertisements, which
    [schema.UnwrapAdvertisement] accepts. *)
Definition lsysLoad (missing : error) (b : gmap Cid Advertisement) (c : Cid)
  : result Advertisement :=
  match b !! c with
  | Some adv => Ok adv
  | None => Err missing
  end.

(** [announce/message.Message]. *)
Record Message := mkMessage { msgCid : Cid; msgAddrs : list Multiaddr }.

Section EngineReads.
Context `{Externals}.
Variable e : options.
(** The error of the link system for a missing node, and storage
    failures of the run. *)
Variable missing : error.
Variable w : World.

(** [GetAdv]: the pair it returns, and the state with its log line. *)
Definition GetAdv (adCid : Cid) (s : State)
  : (option Advertisement * option error) * State :=
  let s := record (EvLog Info "Getting advertisement by CID") s in
  match lsysLoad missing (blocks s) adCid with
  | Err err =>
    ((None,
      Some (Errorf "cannot load advertisement from blockstore with vanilla linksystem: %s"
                   false err)), s)
  | Ok n => ((Some n, None), s)
  end.

(** [GetLatestAdv]: the triple it returns. *)
Definition GetLatestAdv (s : State)
  : outcome (Cid * option Advertisement * option error) :=
  match run w (logMsg Info "Getting latest advertisement";; getLatestAdCid) s with
  | Done (latestAdCid, Some err) s =>
    Done (CidUndef, None,
          Some (Errorf "could not get latest advertisement cid from blockstore: %s"
                       false err)) s
  | Done (latestAdCid, None) s =>
    if decide (latestAdCid = CidUndef) then Done (CidUndef, None, None) s
    else
      match GetAdv latestAdCid s with
      | ((_, Some err), s) =>
        Done (CidUndef, None,
              Some (Errorf "count not get latest advertisement from blockstore by cid: %s"
                           false err)) s
      | ((ad, None), s) => Done (latestAdCid, ad, None) s
      end
  | Panicked s => Panicked s
  | Blocked s => Blocked s
  end.

(** [ctxErr] is [ctx.Err()], and [send] is [httpSender.Send]. *)
Variable ctxErr : option error.
Variable send : Sender -> Message -> option error.

Definition httpAnnounce (adCid : Cid) (announceURLs : list URL) : Prog (option error) :=
  (* from the creation of the sender on, with the addresses chosen *)
  let announce (addrs : list Multiaddr) : Prog (option error) :=
    match h e with
    | None => panic
    | Some host =>
      match httpsenderNew announceURLs (hostID host) with
      | Err err => mret (Some (Errorf "cannot create http announce sender: %w" true err))
      | Ok httpSender =>
        logMsg Info "Announcing advertisements over HTTP";;
        mret (send httpSender (mkMessage adCid addrs))
      end
    end in
  match ctxErr with
  | Some err => mret (Some err)
  | None =>
    if (length announceURLs =? 0)%nat then mret None
    else
      (* The publisher kind determines what addresses to put into the
         announce message. *)
      match pubKind e with
      | NoPublisher =>
        logMsg Info "Remote announcements disabled";;
        mret None
      | DataTransferPublisher =>
        match h e with
        | None => panic
        | Some host => announce (hostAddrs host)
        end
      | HttpPublisher =>
        if negb (length (pubHttpAnnounceAddrs e) =? 0)%nat
        then announce (pubHttpAnnounceAddrs e)
        else
          pub ← act GetPublisher;
          match pub with
          | None => panic
          | Some pub => announce (pubAddrs pub)
          end
      | OtherPublisherKind _ => announce []
      end
  end.

Definition PublishLatestHTTP (announceURLs : list URL) : Prog (Cid * option error) :=
  '(adCid, err) ← latestAdToPublish;
  match err with
  | Some err => mret (CidUndef, Some err)
  | None =>
    err ← httpAnnounce adCid announceURLs;
    match err with
    | Some err => mret (adCid, Some err)
    | None => mret (adCid, None)
    end
  end.

End EngineReads.

(** The addresses [httpAnnounce] puts into the message, by the kind of
    the publisher, for a publisher and a host that are there. *)
Definition announcedAddrs (e : options) (pub : Publisher) (host : Host) : list Multiaddr :=
  match pubKind e with
  | DataTransferPublisher => hostAddrs host
  | HttpPublisher =>
    match pubHttpAnnounceAddrs e with
    | [] => pubAddrs pub
    | _ => pubHttpAnnounceAddrs e
    end
  | NoPublisher | OtherPublisherKind _ => []
  end.

(** A result under a change of the state it comes with. *)
Definition onState {A : Type} (f : State -> State) (o : outcome A) : outcome A :=
  match o with
  | Done a s => Done a (f s)
  | Panicked s => Panicked (f s)
  | Blocked s => Blocked (f s)
  end.

(** An action that neither reads nor writes the registered lister. *)
Definition listerFree (a : action) : Prop :=
  match a with
  | GetLister | SetLister _ => False
  | _ => True
  end.

(** The properties of the codecs that notifications of the same context
    rely on from one call to the next. *)
Section Codecs.
Context `{Externals}.
Variable e : options.

(** The CID of the entries of a put for a new context: the link of the
    chunker, or [NoEntries] when there is no multihash. *)
Definition entriesLink (c : Cid) : Prop :=
  c = NoEntries \/ exists mhs, Chunk mhs = Ok (Some c).

(** Such a CID is a defined one that survives the round trip through
    its bytes. *)
Definition entriesRoundTrip : Prop :=
  forall c, entriesLink c -> c <> CidUndef /\ CidFromBytes (CidBytes c) = Ok c.

(** Metadata decoded from its encoding is equal to the original. *)
Definition metadataRoundTrips (md : Metadata) : Prop :=
  forall data, MetadataMarshalBinary md = Ok data ->
               exists md', MetadataUnmarshalBinary data = (md', None)
                           /\ MetadataEqual md md' = true.

(** The forward row and the metadata row of a provider and a context ID
    are two rows, apart from the reverse rows of every CID and from the
    latest-head row. *)
Definition rowsApart (p : peerID) (contextID : bytes) : Prop :=
  keyToCidKey e p contextID <> keyToMetadataKey e p contextID
  /\ keyToCidKey e p contextID <> dsLatestAdvKey
  /\ keyToMetadataKey e p contextID <> dsLatestAdvKey
  /\ forall c, cidToProviderAndKeyKey c <> keyToCidKey e p contextID
               /\ cidToProviderAndKeyKey c <> keyToMetadataKey e p contextID
               /\ cidToProviderAndKeyKey c <> dsLatestAdvKey.

End Codecs.

(** ** More of the [list] command: the choice of the client *)

(** Go's run-time panic on an index out of range. *)
Inductive indexed (A : Type) :=
| Returned (a : A)
| IndexOutOfRange.
Arguments Returned {A} a.
Arguments IndexOutOfRange {A}.

(** [internal.ProviderClient], by the constructor that made it. *)
Inductive ProviderClient :=
| HttpProviderClient (addrInfo : AddrInfo)
| GraphSyncProviderClient (addrInfo : AddrInfo) (topic : string) (limit : Z).

Section ListCommand.
(** [multiaddr.NewMultiaddr], [peer.AddrInfosFromP2pAddrs], the codes of
    [Multiaddr.Protocols], the codes [multiaddr.P_HTTP] and
    [multiaddr.P_HTTPS], and the errors, if any, of the two constructors
    of package [internal]. *)
Variable NewMultiaddr : string -> result Multiaddr.
Variable AddrInfosFromP2pAddrs : Multiaddr -> result (list AddrInfo).
Variable Protocols : Multiaddr -> list Z.
Variables P_HTTP P_HTTPS : Z.
Variable NewHttpProviderClient : AddrInfo -> option error.
Variable NewGraphSyncProviderClient : AddrInfo -> string -> Z -> option error.
(** The value of the flag of the recursion limit, and [fmt.Sprintf] of
    a format with one [%d]. *)
Variable adEntriesRecurLimitFlagValue : Z.
Variable Sprintf : string -> Z -> string.

Definition toProviderClient (addrStr : string) (topic : string)
  : indexed (option ProviderClient * option error) :=
  match NewMultiaddr addrStr with
  | Err err => Returned (None, Some err)
  | Ok addr =>
    match AddrInfosFromP2pAddrs addr with
    | Err err => Returned (None, Some err)
    | Ok addrInfos =>
      match addrInfos with
      | [] => IndexOutOfRange
      | addrInfo :: _ =>
        match aiAddrs addrInfo with
        | [] => IndexOutOfRange
        | first :: _ =>
          if existsb (fun code => (code =? P_HTTP)%Z || (code =? P_HTTPS)%Z)
                     (Protocols first)
          then Returned
                 match NewHttpProviderClient addrInfo with
                 | Some err => (None, Some err)
                 | None => (Some (HttpProviderClient addrInfo), None)
                 end
          else if decide (topic = "")
          then Returned
                 (None,
                  Some (ErrNew "topic must be configured when graphsync endpoint is specified"))
          else if (adEntriesRecurLimitFlagValue <? 0)%Z
          then Returned
                 (None,
                  Some (ErrNew (Sprintf "ad entries recursion depth limit cannot be less than zero; got %d"
                                        adEntriesRecurLimitFlagValue)))
          else Returned
                 match NewGraphSyncProviderClient addrInfo topic
                                                  adEntriesRecurLimitFlagValue with
                 | Some err => (None, Some err)
                 | None =>
                   (Some (GraphSyncProviderClient addrInfo topic
                                                  adEntriesRecurLimitFlagValue), None)
                 end
        end
      end
    end
  end.

End ListCommand.

(** * Properties *)

#[local] Arguments keyToCidKey : simpl never.
#[local] Arguments keyToMetadataKey : simpl never.
#[local] Arguments cidToKeyKey : simpl never.
#[local] Arguments cidToProviderAndKeyKey : simpl never.
#[local] Arguments dsLatestAdvKey : simpl never.

(** Unfolds the functions of the engine down to their actions. *)
Ltac engine :=
  unfold NotifyPut, NotifyRemove, publishAdvForIndex, publishAdvForIndex_put,
    publishAdvForIndex_rm, publishAdvForIndex_finish, Publish, PublishLocal,
    PublishLatest, latestAdToPublish, Start, newPublisher,
    RegisterMultihashLister, putKeyCidMap, getKeyCidMap, deleteKeyCidMap,
    deleteCidKeyMap, getCidKeyMap, putKeyMetadataMap, getKeyMetadataMap,
    deleteKeyMetadataMap, putLatestAdv, getLatestAdCid, panic, logMsg in *.

Section Runs.
Context `{Externals}.
Variable w : World.

Lemma run_bind {A B : Type} (m : Prog A) (f : A -> Prog B) (s : State) :
  run w (m ≫= f) s =
  match run w m s with
  | Done a s' => run w (f a) s'
  | Panicked s' => Panicked s'
  | Blocked s' => Blocked s'
  end.
Proof.
  revert s. induction m as [a | a k IH]; intros s; [reflexivity |].
  cbn. destruct (exec w a s); auto. apply IH.
Qed.

(** An action only ever adds to the trace. *)
Lemma exec_trace (a : action) (s s' : State) (x : answer a) :
  exec w a s = Answer x s' -> exists evs, trace s' = (evs ++ trace s)%list.
Proof.
  destruct a; simpl; intros E;
    repeat match type of E with
           | context [match ?c with _ => _ end] => destruct c
           end;
    inversion E; subst; simpl;
    first [ by exists [] | by eexists [_] ].
Qed.

Lemma run_trace {A : Type} (p : Prog A) (s s' : State) (r : A) :
  run w p s = Done r s' -> exists evs, trace s' = (evs ++ trace s)%list.
Proof.
  revert s. induction p as [a | a k IH]; simpl; intros s E.
  - inversion E; subst. by exists [].
  - destruct (exec w a s) as [x s1| |] eqn:Ex; try discriminate.
    destruct (exec_trace _ _ _ _ Ex) as [e1 E1].
    destruct (IH _ _ E) as [e2 E2].
    exists (e2 ++ e1)%list. by rewrite E2, E1, app_assoc.
Qed.

Lemma newEvents_app (s s' : State) (evs : list event) :
  trace s' = (evs ++ trace s)%list -> newEvents s s' = rev evs.
Proof.
  intros E. unfold newEvents. rewrite E, length_app.
  replace (length evs + length (trace s) - length (trace s)) with (length evs) by lia.
  by rewrite take_app_length.
Qed.

End Runs.

Section ErrorResults.
Context `{Externals}.
Variables (e : options) (w : World).

(** C1.  The error [publishAdvForIndex] returns when nothing should
    change is the one its decision table gives for the pair (existing
    entries CID, isRm): without an existing entries CID, not removing
    and without a registered lister it fails with [ErrNoMultihashLister];
    with an existing entries CID, not removing and with metadata equal
    to the stored metadata it returns [cid.Undef] and
    [ErrAlreadyAdvertised]; without an existing entries CID and removing
    it fails with [ErrContextIDNotFound].  In all three cases the
    datastore and the link system are left as they were. *)
Theorem publishAdvForIndex_unchanged_errors
    (s : State) (p : peerID) (addrs : list Multiaddr) (contextID : bytes)
    (md : Metadata) :
  (noEntriesCid e w s p contextID -> mhLister s = None ->
   exists s', run w (publishAdvForIndex e p addrs contextID md false) s
              = Done (CidUndef, Some ErrNoMultihashLister) s'
              /\ ds s' = ds s /\ blocks s' = blocks s)
  /\ (forall c prev,
       entriesCid e w s p contextID c ->
       storedMetadata e w s p contextID prev ->
       MetadataEqual md prev = true ->
       exists s', run w (publishAdvForIndex e p addrs contextID md false) s
                  = Done (CidUndef, Some ErrAlreadyAdvertised) s'
                  /\ ds s' = ds s /\ blocks s' = blocks s)
  /\ (noEntriesCid e w s p contextID ->
      exists s', run w (publishAdvForIndex e p addrs contextID md true) s
                 = Done (CidUndef, Some ErrContextIDNotFound) s'
                 /\ ds s' = ds s /\ blocks s' = blocks s).
Proof.
  repeat split.
  - intros [Hg Hk] Hl. engine. simpl. rewrite Hg, Hk. simpl. rewrite Hl.
    eexists. repeat split; reflexivity.
  - intros c prev (Hg & Hc & b & Hk & Hb) (Hg' & data & Hm & Hu) Heq.
    engine. simpl. rewrite Hg, Hk, Hb. simpl.
    destruct (decide (c = CidUndef)); [done |]. simpl.
    rewrite Hg', Hm, Hu. simpl. rewrite Heq.
    eexists. repeat split; reflexivity.
  - intros [Hg Hk]. engine. simpl. rewrite Hg, Hk. simpl.
    eexists. repeat split; reflexivity.
Qed.

(** C5.  When [PublishLocal] succeeds with the CID [c], [Publish]
    returns [c] and a nil error whatever the publisher answers: a failed
    announcement is logged as an error and not returned, and the
    datastore and the link system stay as [PublishLocal] left them. *)
Theorem Publish_swallows_announce_failure
    (s s1 : State) (adv : Advertisement) (c : Cid) :
  run w (PublishLocal adv) s = Done (c, None) s1 ->
  exists s', run w (Publish e adv) s = Done (c, None) s'
             /\ ds s' = ds s1 /\ blocks s' = blocks s1
             /\ forall pub err,
                  publisher s1 = Some pub ->
                  (if (0 <? length (pubHttpAnnounceAddrs e))%nat
                      && bool_decide (pubKind e = HttpPublisher)
                   then pubUpdateRootWithAddrs pub c (pubHttpAnnounceAddrs e)
                   else pubUpdateRoot pub c) = Some err ->
                  exists evs, trace s'
                              = (EvLog Error "Failed to announce advertisement" :: evs)%list.
Proof.
  intros HL. unfold Publish. rewrite run_bind, HL. simpl.
  destruct (publisher s1) as [pub|] eqn:Hp; simpl;
    [| eexists; split; [reflexivity |]; repeat split; auto; intros; discriminate ].
  destruct (length (announceURLs e) =? 0)%nat; simpl;
    destruct ((0 <? length (pubHttpAnnounceAddrs e))%nat
              && bool_decide (pubKind e = HttpPublisher)); simpl;
    match goal with
    | |- context [match ?r with Some _ => _ | None => _ end] => destruct r eqn:Ea
    end; simpl;
    eexists; (split; [reflexivity |]); simpl; repeat split; auto;
    intros pub' err' [= <-] Hf; first [ by eexists | congruence ].
Qed.

(** C6.  An engine whose publisher kind is "none" has no publisher after
    [Start]; on it [latestAdToPublish] returns [cid.Undef] and a nil
    error, and [PublishLatest] then calls [UpdateRoot] on the nil
    publisher: the call panics instead of returning, and no
    announcement is made. *)
Theorem PublishLatest_without_publisher_panics (s : State) :
  pubKind e = NoPublisher ->
  NewCachedEntriesChunker = None ->
  exists s1,
    run w (Start e) s = Done None s1
    /\ publisher s1 = None
    /\ (exists s2, run w latestAdToPublish s1 = Done (CidUndef, None) s2)
    /\ exists s3, run w PublishLatest s1 = Panicked s3
                  /\ forall c, ~ In (EvUpdateRoot c) (newEvents s1 s3).
Proof.
  intros Hk Hc. engine. rewrite Hc, Hk. simpl.
  eexists. split; [reflexivity |]. simpl. split; [reflexivity |].
  split; [by eexists |].
  eexists. split; [reflexivity |].
  intros c. erewrite newEvents_app with (evs := [_; _]); [| reflexivity].
  simpl. intros [|[|[]]]; discriminate.
Qed.

End ErrorResults.

(** ** Programs as sets of paths *)

Lemma always_bind {A B : Type} (P : action -> Prop) (m : Prog A) (f : A -> Prog B) :
  always P m -> (forall a, always P (f a)) -> always P (m ≫= f).
Proof.
  intros Hm Hf. induction m as [a | a k IH]; simpl; [apply Hf |].
  destruct Hm as [Pa Pk]. split; [exact Pa |]. intros x. apply IH, Pk.
Qed.

Lemma always_impl {A : Type} (P Q : action -> Prop) (p : Prog A) :
  (forall a, P a -> Q a) -> always P p -> always Q p.
Proof.
  intros HPQ. induction p as [a | a k IH]; simpl; [done |].
  intros [Pa Pk]. split; [by apply HPQ |]. intros x. apply IH, Pk.
Qed.

Lemma always_and {A : Type} (P Q : action -> Prop) (p : Prog A) :
  always (fun a => P a /\ Q a) p -> always P p /\ always Q p.
Proof.
  intros HPQ. split; (eapply always_impl; [| exact HPQ]); by intros a [? ?].
Qed.

(** Walks every path of a program of the engine, one action or one
    branching at a time. *)
Ltac paths :=
  repeat match goal with
         | |- True => exact I
         | |- always _ (Ret _) => exact I
         | |- always _ (mret _) => exact I
         | |- always _ (Act _ _) => split; [| intro]
         | |- always _ (act _) => split; [| intro; exact I]
         | |- always _ (_ ≫= _) => apply always_bind; [| intro]
         | |- always _ (match ?x with _ => _ end) => destruct x
         | |- always _ (let _ := _ in _) => cbv zeta
         end.

Section Traces.
Context `{Externals}.
Variable w : World.

Lemma exec_event (a : action) (s s' : State) (x : answer a) :
  exec w a s = Answer x s' ->
  trace s' = match eventOf a with
             | Some ev => ev :: trace s
             | None => trace s
             end.
Proof.
  destruct a; simpl; intros E;
    repeat match type of E with
           | context [match ?c with _ => _ end] => destruct c
           end;
    inversion E; subst; reflexivity.
Qed.

(** Every event of a run is the event of an action of the program. *)
Lemma always_events {A : Type} (P : action -> Prop) (p : Prog A) :
  always P p ->
  forall s r s', run w p s = Done r s' ->
  forall ev, In ev (newEvents s s') -> exists a, P a /\ eventOf a = Some ev.
Proof.
  intros HP s r s' E.
  assert (exists evs, trace s' = (evs ++ trace s)%list
                      /\ forall ev, In ev evs -> exists a, P a /\ eventOf a = Some ev)
    as (evs & Et & Hevs).
  { revert s HP E. induction p as [a | a k IH]; simpl; intros s HP E.
    - inversion E; subst. exists []. split; [reflexivity | intros ? []].
    - destruct HP as [Pa Pk].
      destruct (exec w a s) as [x s1| |] eqn:Ex; try discriminate.
      apply exec_event in Ex.
      destruct (IH x _ (Pk x) E) as (e2 & E2 & H2).
      destruct (eventOf a) as [ev1|] eqn:Eev.
      + exists (e2 ++ [ev1])%list. split; [by rewrite E2, Ex, <- app_assoc |].
        intros ev Hin. apply in_app_or in Hin as [Hin | [<- | []]]; eauto.
      + exists e2. split; [by rewrite E2, Ex | auto]. }
  intros ev Hin. rewrite (newEvents_app _ _ _ Et) in Hin.
  apply Hevs. by apply in_rev.
Qed.

(** The rows outside the keys a program writes are left as they were. *)
Lemma always_frame {A : Type} (K : Key -> Prop) (p : Prog A) :
  always (writesWithin K) p ->
  forall s r s', run w p s = Done r s' ->
  forall k, ~ K k -> ds s' !! k = ds s !! k.
Proof.
  induction p as [a | a k IH]; simpl; intros HP s r s' E k0 Hk.
  - by inversion E.
  - destruct HP as [Pa Pk].
    destruct (exec w a s) as [x s1| |] eqn:Ex; try discriminate.
    rewrite (IH x (Pk x) _ _ _ E k0 Hk).
    destruct a; simpl in Ex, Pa;
      repeat match type of Ex with
             | context [match ?c with _ => _ end] => destruct c
             end;
      inversion Ex; subst; simpl; try reflexivity.
    + apply lookup_insert_ne. congruence.
    + apply lookup_delete_ne. congruence.
Qed.

(** A program of index actions returns, and leaves the link system and
    the fields of the engine as they were. *)
Lemma always_index {A : Type} (p : Prog A) (s : State) :
  always indexAction p ->
  exists r s', run w p s = Done r s'
               /\ blocks s' = blocks s /\ mhLister s' = mhLister s
               /\ publisher s' = publisher s /\ cblk s' = cblk s.
Proof.
  revert s. induction p as [a | a k IH]; simpl; intros s HP.
  - by exists a, s.
  - destruct HP as [Pa Pk].
    assert (exists x s1, exec w a s = Answer x s1
                         /\ blocks s1 = blocks s /\ mhLister s1 = mhLister s
                         /\ publisher s1 = publisher s /\ cblk s1 = cblk s)
      as (x & s1 & Ex & Hb & Hl & Hp & Hc).
    { destruct a; simpl in Pa; try done; simpl;
        repeat match goal with
               | |- context [match ?c with _ => _ end] => destruct c
               end; eexists _, _; repeat split. }
    rewrite Ex. destruct (IH x s1 (Pk x)) as (r & s' & E & Hb' & Hl' & Hp' & Hc').
    exists r, s'. rewrite E. repeat split; congruence.
Qed.

End Traces.

Lemma returns_bind {A B : Type} (Q : A -> Prop) (R : B -> Prop)
    (m : Prog A) (f : A -> Prog B) :
  returns Q m -> (forall a, Q a -> returns R (f a)) -> returns R (m ≫= f).
Proof.
  intros Hm Hf. induction m as [a | a k IH]; simpl; [by apply Hf |].
  intros x. apply IH, Hm.
Qed.

Lemma returns_run `{Externals} {A : Type} (w : World) (Q : A -> Prop) (p : Prog A) :
  returns Q p -> forall s r s', run w p s = Done r s' -> Q r.
Proof.
  induction p as [a | a k IH]; simpl; intros HQ s r s' E.
  - by inversion E; subst.
  - destruct (exec w a s) as [x s1| |]; try discriminate. eapply IH; eauto.
Qed.

Lemma returns_any {A : Type} (p : Prog A) : returns (fun _ => True) p.
Proof. induction p; simpl; auto. Qed.

(** Walks every path of a program down to the values it returns. *)
Ltac results :=
  repeat match goal with
         | |- returns _ (Ret _) => simpl
         | |- returns _ (mret _) => simpl
         | |- returns _ (_ ≫= _) =>
           eapply (returns_bind (fun _ => True)); [apply returns_any | intros ? _]
         | |- returns _ (match ?x with _ => _ end) => destruct x
         | |- returns _ (let _ := _ in _) => cbv zeta
         end.

Section Parts.
Context `{Externals}.
Variables (e : options) (w : World).

Lemma getKeyCidMap_always (p : peerID) (contextID : bytes) :
  always (fun a => writesWithin (fun _ => False) a /\ indexAction a)
         (getKeyCidMap e p contextID).
Proof. engine. paths; simpl; auto. Qed.

Lemma put_always (p : peerID) (contextID : bytes) (md : Metadata) (c : Cid) :
  always (fun a => writesWithin (newIndexKeys e p contextID) a /\ indexAction a)
         (publishAdvForIndex_put e p contextID md c).
Proof.
  engine. unfold newIndexKeys. paths; simpl; split; eauto.
Qed.

Lemma rm_always (p : peerID) (contextID : bytes) (c : Cid) :
  always (fun a => writesWithin (indexKeys e p contextID) a /\ indexAction a)
         (publishAdvForIndex_rm e p contextID c).
Proof.
  engine. unfold indexKeys. paths; simpl; split; eauto.
Qed.

Lemma put_returns (p : peerID) (contextID : bytes) (md : Metadata) (c : Cid) :
  returns earlyIsError (publishAdvForIndex_put e p contextID md c).
Proof.
  unfold publishAdvForIndex_put, earlyIsError.
  eapply (returns_bind (fun _ => True)); [apply returns_any | intros _ _].
  eapply (returns_bind (fun r : Cid + Cid * option error =>
                          forall c err, r = inr (c, err) -> c = CidUndef /\ err <> None)).
  - results; intros ? ? [=]; subst; by split.
  - intros [cidsLnk | [c0 err0]] Hr; results; intros ? ? [=]; subst;
      first [ by split | by apply Hr ].
Qed.

Lemma rm_returns (p : peerID) (contextID : bytes) (c : Cid) :
  returns earlyIsError (publishAdvForIndex_rm e p contextID c).
Proof.
  engine. unfold earlyIsError.
  results; intros ? ? [=]; subst; by split.
Qed.

End Parts.

(** Splits on the value a stuck [match] of the goal waits for. *)
Ltac branch :=
  match goal with
  | |- context [match ?x with _ => _ end] =>
    lazymatch x with
    | context [match _ with _ => _ end] => fail
    | _ => destruct x eqn:?
    end
  end.

Section Steps.
Context `{Externals}.
Variables (e : options) (w : World).

Lemma headCid_frame (s s' : State) :
  ds s' !! dsLatestAdvKey = ds s !! dsLatestAdvKey -> headCid s' = headCid s.
Proof. unfold headCid. by intros ->. Qed.

(** What reading the latest-head row gives. *)
Lemma getLatestAdCid_run (s : State) :
  exists r, run w getLatestAdCid s = Done r (record (EvGet dsLatestAdvKey) s)
            /\ (headFaultsShow w -> forall c, r = (c, None) -> c = headCid s).
Proof.
  unfold getLatestAdCid, headCid. simpl.
  destruct (getFault w dsLatestAdvKey) as [err|] eqn:Eg; simpl.
  - destruct (errorsIs err ErrNotFound) eqn:Ei; simpl;
      (eexists; split; [reflexivity |]); intros Hf c [=].
    specialize (Hf _ Eg). congruence.
  - destruct (ds s !! dsLatestAdvKey) as [b|]; simpl.
    + destruct (CidFromBytes b); simpl; eexists; (split; [reflexivity |]);
        intros _ c' [=]; auto.
    + eexists; (split; [reflexivity |]); intros _ c' [=]; auto.
Qed.

(** [Publish] on its own: a success stores the advertisement under its
    link and moves the head to it; a failure leaves the datastore as it
    was. *)
Lemma Publish_run (s : State) (adv : Advertisement) :
  match run w (Publish e adv) s with
  | Done (c, None) s' =>
    c = LinkOf adv /\ blocks s' = <[c := adv]> (blocks s)
    /\ ds s' = <[dsLatestAdvKey := CidBytes c]> (ds s)
    /\ AdValidate adv = None
  | Done (c, Some _) s' => c = CidUndef /\ ds s' = ds s
  | Panicked _ | Blocked _ => False
  end.
Proof.
  unfold Publish, PublishLocal, putLatestAdv, logMsg. simpl.
  destruct (AdValidate adv) eqn:Ev; simpl; [done |].
  destruct (AdToNode adv); simpl; [done |].
  destruct (storeFault w adv); simpl; [done |].
  destruct (putFault w dsLatestAdvKey); simpl; [done |].
  destruct (publisher s); simpl; [| done].
  destruct (length (announceURLs e) =? 0)%nat; simpl;
    destruct ((0 <? length (pubHttpAnnounceAddrs e))%nat
              && bool_decide (pubKind e = HttpPublisher)); simpl;
    branch; simpl; done.
Qed.

(** [PublishLocal] on its own, like [Publish]. *)
Lemma PublishLocal_run (s : State) (adv : Advertisement) :
  match run w (PublishLocal adv) s with
  | Done (c, None) s' =>
    c = LinkOf adv /\ blocks s' = <[c := adv]> (blocks s)
    /\ ds s' = <[dsLatestAdvKey := CidBytes c]> (ds s)
  | Done (c, Some _) s' => c = CidUndef /\ ds s' = ds s
  | Panicked _ | Blocked _ => False
  end.
Proof.
  unfold PublishLocal, putLatestAdv, logMsg. simpl.
  destruct (AdValidate adv); simpl; [done |].
  destruct (AdToNode adv); simpl; [done |].
  destruct (storeFault w adv); simpl; [done |].
  destruct (putFault w dsLatestAdvKey); simpl; done.
Qed.

Lemma finish_run (s : State) (p : peerID) (addrs : list Multiaddr)
    (contextID : bytes) (isRm : bool) (cidsLnk : Cid) (md : Metadata) :
  match run w (publishAdvForIndex_finish e p addrs contextID isRm cidsLnk md) s with
  | Done (c, None) s' =>
    exists adv mdBytes,
      MetadataMarshalBinary md = Ok mdBytes
      /\ c = LinkOf adv
      /\ blocks s' = <[c := adv]> (blocks s)
      /\ ds s' = <[dsLatestAdvKey := CidBytes c]> (ds s)
      /\ (headFaultsShow w -> PreviousID adv = linkTo (headCid s))
      /\ Entries adv = cidsLnk /\ IsRm adv = isRm /\ AdMetadata adv = mdBytes
      /\ ContextID adv = contextID /\ Provider adv = PeerString p
      /\ Addresses adv = map MultiaddrString addrs
      /\ AdValidate adv = None
  | Done (c, Some _) s' => c = CidUndef /\ ds s' = ds s
  | Panicked _ | Blocked _ => False
  end.
Proof.
  unfold publishAdvForIndex_finish.
  destruct (MetadataMarshalBinary md) as [mdBytes | err] eqn:Em; [| done].
  cbv zeta. rewrite run_bind.
  destruct (getLatestAdCid_run s) as ([prev err] & -> & Hprev).
  destruct err as [err|]; simpl; [done |].
  set (s1 := record (EvGet dsLatestAdvKey) s).
  assert (forall adv0 s2,
    (headFaultsShow w -> PreviousID adv0 = linkTo (headCid s)) ->
    Entries adv0 = cidsLnk ->
    IsRm adv0 = isRm -> AdMetadata adv0 = mdBytes -> ContextID adv0 = contextID ->
    Provider adv0 = PeerString p -> Addresses adv0 = map MultiaddrString addrs ->
    ds s2 = ds s -> blocks s2 = blocks s ->
    match
      run w match AdSign adv0 (key e) with
            | Ok sig => Publish e (withSignature adv0 sig)
            | Err err => mret (CidUndef, Some err)
            end s2
    with
    | Done (c, None) s' =>
      exists adv mdBytes',
        Ok mdBytes = Ok mdBytes'
        /\ c = LinkOf adv
        /\ blocks s' = <[c := adv]> (blocks s)
        /\ ds s' = <[dsLatestAdvKey := CidBytes c]> (ds s)
        /\ (headFaultsShow w -> PreviousID adv = linkTo (headCid s))
        /\ Entries adv = cidsLnk /\ IsRm adv = isRm /\ AdMetadata adv = mdBytes'
        /\ ContextID adv = contextID /\ Provider adv = PeerString p
        /\ Addresses adv = map MultiaddrString addrs
        /\ AdValidate adv = None
    | Done (c, Some _) s' => c = CidUndef /\ ds s' = ds s
    | Panicked _ | Blocked _ => False
    end) as Hsign.
  { intros adv0 s2 H1 H2 H3 H4 H5 H6 H7 Hd Hb.
    destruct (AdSign adv0 (key e)) as [sig | err]; simpl; [| done].
    pose proof (Publish_run s2 (withSignature adv0 sig)) as HP.
    destruct (run w (Publish e (withSignature adv0 sig)) s2) as [[c [err|]] s' | |];
      [ by rewrite <- Hd | | done | done ].
    destruct HP as (Hc & Hbl & Hds & Hv).
    exists (withSignature adv0 sig), mdBytes. rewrite <- Hd, <- Hb. by repeat split. }
  destruct (decide (prev = CidUndef)) as [Eh | Eh]; simpl.
  - apply Hsign; simpl; auto. intros Hf. rewrite <- (Hprev Hf _ eq_refl), Eh. done.
  - apply Hsign; simpl; auto. intros Hf. rewrite <- (Hprev Hf _ eq_refl).
    unfold linkTo. by destruct (decide (prev = CidUndef)).
Qed.

(** One call of [publishAdvForIndex] running alone: when it succeeds,
    the advertisement it stored is linked to the head it found, and the
    head is the CID it returns; when it fails, the head is the one it
    found.  It always returns. *)
Lemma publish_step (s : State) (p : peerID) (addrs : list Multiaddr)
    (contextID : bytes) (md : Metadata) (isRm : bool) :
  headKeyApart e p contextID -> headFaultsShow w ->
  match run w (publishAdvForIndex e p addrs contextID md isRm) s with
  | Done (c, None) s' =>
    exists adv,
      c = LinkOf adv /\ blocks s' !! c = Some adv
      /\ PreviousID adv = linkTo (headCid s)
      /\ ds s' !! dsLatestAdvKey = Some (CidBytes c)
  | Done (c, Some _) s' =>
    c = CidUndef /\ ds s' !! dsLatestAdvKey = ds s !! dsLatestAdvKey
  | Panicked _ | Blocked _ => False
  end.
Proof.
  intros (Hk1 & Hk2 & Hk3) Hf. unfold publishAdvForIndex. rewrite run_bind.
  destruct (always_and _ _ _ (getKeyCidMap_always e p contextID)) as [Gw Gi].
  destruct (always_index w (getKeyCidMap e p contextID) s Gi) as (r & s1 & E1 & _).
  assert (ds s1 !! dsLatestAdvKey = ds s !! dsLatestAdvKey) as F1.
  { apply (always_frame w (fun _ => False) _ Gw _ _ _ E1). tauto. }
  rewrite E1. destruct r as [c err].
  destruct (match err with
            | Some err0 => if decide (err0 = ErrNotFound) then None else Some err0
            | None => None
            end); [by simpl |].
  rewrite run_bind.
  set (br := if negb isRm then publishAdvForIndex_put e p contextID md c
             else publishAdvForIndex_rm e p contextID c).
  assert (always (fun a => writesWithin (indexKeys e p contextID) a /\ indexAction a) br)
    as Hbr.
  { unfold br. destruct (negb isRm); [| apply rm_always].
    eapply always_impl; [| apply put_always].
    intros a [Ha Hi]. split; [| exact Hi].
    destruct a; simpl in *; auto; unfold indexKeys;
      destruct Ha as [-> | [[c' ->] | ->]]; eauto. }
  assert (returns (earlyIsError) br) as Rbr.
  { unfold br. destruct (negb isRm); [apply put_returns | apply rm_returns]. }
  destruct (always_and _ _ _ Hbr) as [Bw Bi].
  destruct (always_index w br s1 Bi) as (r2 & s2 & E2 & Hb2 & _).
  assert (ds s2 !! dsLatestAdvKey = ds s !! dsLatestAdvKey) as F2.
  { rewrite <- F1. apply (always_frame w (indexKeys e p contextID) _ Bw _ _ _ E2).
    intros [Hx | [Hx | [c' [Hx | Hx]]]]; try congruence;
      destruct (Hk3 c'); congruence. }
  pose proof (returns_run w _ _ Rbr _ _ _ E2) as Hearly.
  rewrite E2. destruct r2 as [[cidsLnk md'] | [c0 err0]].
  - pose proof (finish_run s2 p addrs contextID isRm cidsLnk md') as HF.
    destruct (run w (publishAdvForIndex_finish e p addrs contextID isRm cidsLnk md') s2)
      as [[c1 [err1|]] s3 | |]; [| | done | done].
    + destruct HF as [-> ->]. by split.
    + destruct HF as (adv & mdBytes & _ & Hc & Hbl & Hds & Hprev & _).
      exists adv. split; [exact Hc |].
      rewrite Hbl, Hds, !lookup_insert_eq, (Hprev Hf), (headCid_frame _ _ F2). done.
  - simpl. destruct (Hearly _ _ eq_refl) as [-> Herr].
    destruct err0; [by split | done].
Qed.

End Steps.

Section Chain.
Context `{Externals}.
Variable e : options.

Lemma perform_subject (c : call) :
  exists addrs md isRm,
    perform e c = publishAdvForIndex e (subject e c).1 addrs (subject e c).2 md isRm.
Proof.
  destruct c as [[prov|] contextID md | prov contextID]; simpl;
    unfold NotifyPut, NotifyRemove; eauto.
Qed.

(** One notification running alone. *)
Lemma perform_step (w : World) (c : call) (s : State) :
  linksRoundTrip -> headFaultsShow w ->
  headKeyApart e (subject e c).1 (subject e c).2 ->
  match run w (perform e c) s with
  | Done (adCid, None) s' =>
    exists adv, blocks s' !! adCid = Some adv
                /\ PreviousID adv = linkTo (headCid s)
                /\ headCid s' = adCid
  | Done (_, Some _) s' => headCid s' = headCid s
  | Panicked _ | Blocked _ => False
  end.
Proof.
  intros Hrt Hf Hk. destruct (perform_subject c) as (addrs & md & isRm & ->).
  pose proof (publish_step e w s _ addrs _ md isRm Hk Hf) as HS.
  destruct (run w _ s) as [[adCid [err|]] s' | |]; try done.
  - destruct HS as [_ HS]. by apply headCid_frame.
  - destruct HS as (adv & -> & Hb & Hp & Hd). exists adv. repeat split; auto.
    unfold headCid. rewrite Hd. by destruct (Hrt adv) as [_ ->].
Qed.

(** X23.  In a sequence of notifications, each running alone and each
    with its rows of the index kept under other keys than the
    latest-head row, every advertisement of a successful call is linked
    to the CID the successful call before it returned: its [PreviousID]
    is the latest head, the one read before signing.  The first one is
    linked to the head the sequence started from, and has no
    [PreviousID] when there was no head, as for the genesis
    advertisement.  The links survive the round trip through their
    bytes, and a failure of the read of the head shows. *)
Theorem published_chained (calls : list (World * call)) (s : State) :
  linksRoundTrip ->
  Forall (fun wc => headFaultsShow wc.1
                    /\ headKeyApart e (subject e wc.2).1 (subject e wc.2).2) calls ->
  chained (headCid s) (published e calls s)
  /\ (ds s !! dsLatestAdvKey = None ->
      forall adCid adv rest,
        published e calls s = (adCid, adv) :: rest -> PreviousID adv = None).
Proof.
  intros Hrt Hcalls.
  assert (chained (headCid s) (published e calls s)) as Hch.
  { revert s. induction Hcalls as [| [w c] calls [Hf Hk] _ IH]; intros s; [exact I |].
    simpl in *. pose proof (perform_step w c s Hrt Hf Hk) as HS.
    destruct (run w (perform e c) s) as [[adCid [err|]] s' | |]; try done.
    - rewrite <- HS. apply IH.
    - destruct HS as (adv & -> & Hp & Hh). simpl. split; [exact Hp |].
      rewrite <- Hh. apply IH. }
  split; [exact Hch |].
  intros Hnone adCid adv rest E. rewrite E in Hch. destruct Hch as [-> _].
  unfold headCid. by rewrite Hnone.
Qed.

End Chain.

Section Locking.
Context `{Externals}.
Variable e : options.

Lemma indexAction_lockFree (a : action) : indexAction a -> lockFree a.
Proof. destruct a; simpl; try done; intros _; by repeat split. Qed.

Lemma always_lockFree {A : Type} (w : World) (p : Prog A) (s : State) :
  always lockFree p -> runsUnlocked w p s.
Proof.
  intros HP.
  assert (exists r s', run w p s = Done r s' /\ cblk s' = cblk s) as (r & s' & E & Hc).
  { revert s. induction p as [a | a k IH]; simpl; intros s; [by eauto |].
    destruct HP as [(Hl & Hu & Hp) Pk].
    assert (exists x s1, exec w a s = Answer x s1 /\ cblk s1 = cblk s)
      as (x & s1 & -> & Hc1).
    { destruct a; try done; simpl;
        repeat match goal with
               | |- context [match ?c with _ => _ end] => destruct c
               end; eauto. }
    destruct (IH x (Pk x) s1) as (r & s' & E & Hc). exists r, s'. split; [done | congruence]. }
  exists r, s'. repeat split; auto.
  - intros Hin. destruct (always_events w _ _ HP _ _ _ E _ Hin) as (a & (Hl & _) & Ea).
    destruct a; try discriminate. done.
  - intros Hin. destruct (always_events w _ _ HP _ _ _ E _ Hin) as (a & (_ & Hu & _) & Ea).
    destruct a; try discriminate. done.
Qed.

Lemma Publish_lockFree (adv : Advertisement) : always lockFree (Publish e adv).
Proof. engine. paths; by repeat split. Qed.

Lemma PublishLocal_lockFree (adv : Advertisement) : always lockFree (PublishLocal adv).
Proof. engine. paths; by repeat split. Qed.

Lemma publishAdvForIndex_lockFree (p : peerID) (addrs : list Multiaddr)
    (contextID : bytes) (md : Metadata) (isRm : bool) :
  always lockFree (publishAdvForIndex e p addrs contextID md isRm).
Proof.
  unfold publishAdvForIndex.
  apply always_bind.
  { eapply always_impl; [| apply getKeyCidMap_always].
    intros a [_ Hi]. by apply indexAction_lockFree. }
  intros [c err]. destruct (match err with
                            | Some err0 => _
                            | None => None
                            end); [exact I |].
  apply always_bind.
  { destruct (negb isRm);
      (eapply always_impl; [| first [apply put_always | apply rm_always]]);
      intros a [_ Hi]; by apply indexAction_lockFree. }
  intros [[cidsLnk md'] | early]; [| exact I].
  unfold publishAdvForIndex_finish, getLatestAdCid, logMsg.
  paths; first [ by repeat split | apply Publish_lockFree ].
Qed.

(** C2, as the code has it.  The write path takes no lock: a call of
    [publishAdvForIndex] (so of [NotifyPut] and [NotifyRemove]), of
    [Publish] or of [PublishLocal] runs to its end whether or not the
    mutex [cblk] of the engine is held, and neither takes nor releases
    it; the only function that holds the mutex is
    [RegisterMultihashLister], around the assignment of the lister.  A
    call of [publishAdvForIndex] that runs alone and succeeds moves the
    head by one link: the head becomes the CID it returns, and the
    advertisement stored for it is linked to the head the call found;
    this for a call whose rows of the index are kept under other keys
    than the latest-head row, with links that survive the round trip
    through their bytes and a failure of the read of the head that
    shows.  A call of [Publish] or of [PublishLocal] that runs alone and
    succeeds makes the CID it returns the head, and stores for it the
    advertisement of the caller as it was given, without linking it. *)
Theorem write_path_takes_no_lock (w : World) (s : State) :
  (forall p addrs contextID md isRm,
     runsUnlocked w (publishAdvForIndex e p addrs contextID md isRm) s)
  /\ (forall adv, runsUnlocked w (Publish e adv) s)
  /\ (forall adv, runsUnlocked w (PublishLocal adv) s)
  /\ (forall mhl,
        if cblk s
        then run w (RegisterMultihashLister mhl) s
             = Blocked (record (EvLog Debug "Registering multihash lister in engine") s)
        else exists s', run w (RegisterMultihashLister mhl) s = Done tt s'
                        /\ newEvents s s'
                           = [EvLog Debug "Registering multihash lister in engine";
                              EvLock; EvSetLister; EvUnlock]
                        /\ mhLister s' = mhl /\ cblk s' = false)
  /\ (forall p addrs contextID md isRm adCid s',
        linksRoundTrip -> headFaultsShow w -> headKeyApart e p contextID ->
        run w (publishAdvForIndex e p addrs contextID md isRm) s = Done (adCid, None) s' ->
        headCid s' = adCid
        /\ exists adv, blocks s' !! adCid = Some adv
                       /\ PreviousID adv = linkTo (headCid s))
  /\ (forall adv adCid s',
        linksRoundTrip ->
        run w (PublishLocal adv) s = Done (adCid, None) s'
        \/ run w (Publish e adv) s = Done (adCid, None) s' ->
        headCid s' = adCid /\ blocks s' !! adCid = Some adv).
Proof.
  split; [| split; [| split; [| split; [| split]]]].
  - intros. apply always_lockFree, publishAdvForIndex_lockFree.
  - intros. apply always_lockFree, Publish_lockFree.
  - intros. apply always_lockFree, PublishLocal_lockFree.
  - intros mhl. unfold RegisterMultihashLister, logMsg. simpl.
    destruct (cblk s) eqn:Ec; simpl; [reflexivity |].
    eexists. split; [reflexivity |]. simpl. repeat split.
    erewrite newEvents_app with (evs := [_; _; _; _]); [| reflexivity]. reflexivity.
  - intros p addrs contextID md isRm adCid s' Hrt Hf Hk E.
    pose proof (publish_step e w s p addrs contextID md isRm Hk Hf) as HS.
    rewrite E in HS. destruct HS as (adv & -> & Hb & Hp & Hd). split; [| eauto].
    unfold headCid. rewrite Hd. by destruct (Hrt adv) as [_ ->].
  - intros adv adCid s' Hrt E.
    assert (adCid = LinkOf adv /\ blocks s' = <[adCid := adv]> (blocks s)
            /\ ds s' = <[dsLatestAdvKey := CidBytes adCid]> (ds s)) as (-> & Hb & Hd).
    { destruct E as [E | E].
      - pose proof (PublishLocal_run w s adv) as HP. by rewrite E in HP.
      - pose proof (Publish_run e w s adv) as HP. rewrite E in HP. tauto. }
    split; [| by rewrite Hb, lookup_insert_eq].
    unfold headCid. rewrite Hd, lookup_insert_eq. by destruct (Hrt adv) as [_ ->].
Qed.

End Locking.

Section Removal.
Context `{Externals}.
Variables (e : options) (w : World).

(** A removal with an existing entries CID: either one of its deletions
    fails and it returns that failure, or it goes on to assemble the
    removal advertisement in a datastore without the four rows. *)
Lemma removal_run (s : State) (p : peerID) (addrs : list Multiaddr)
    (contextID : bytes) (md : Metadata) (c : Cid) :
  entriesCid e w s p contextID c ->
  (exists err s', run w (publishAdvForIndex e p addrs contextID md true) s
                  = Done (CidUndef, Some err) s'
                  /\ (deleteFault w (keyToCidKey e p contextID) <> None
                      \/ deleteFault w (cidToProviderAndKeyKey c) <> None
                      \/ deleteFault w (cidToKeyKey c) <> None
                      \/ deleteFault w (keyToMetadataKey e p contextID) <> None))
  \/ (exists s2,
        run w (publishAdvForIndex e p addrs contextID md true) s
        = run w (publishAdvForIndex_finish e p addrs contextID true NoEntries emptyMetadata) s2
        /\ ds s2 = delete (keyToMetadataKey e p contextID)
                     (delete (cidToKeyKey c)
                        (delete (cidToProviderAndKeyKey c)
                           (delete (keyToCidKey e p contextID) (ds s))))
        /\ blocks s2 = blocks s
        /\ trace s2 = ([EvDelete (keyToMetadataKey e p contextID);
                        EvDelete (cidToKeyKey c);
                        EvDelete (cidToProviderAndKeyKey c);
                        EvDelete (keyToCidKey e p contextID);
                        EvLog Info "Creating removal advertisement";
                        EvGet (keyToCidKey e p contextID)] ++ trace s)%list).
Proof.
  intros (Hg & Hc & b & Hk & Hb).
  unfold publishAdvForIndex. rewrite run_bind.
  unfold getKeyCidMap. simpl. rewrite Hg, Hk, Hb. simpl.
  rewrite run_bind. unfold publishAdvForIndex_rm, deleteKeyCidMap, deleteCidKeyMap,
    deleteKeyMetadataMap, logMsg. simpl.
  destruct (decide (c = CidUndef)); [done |]. simpl.
  destruct (deleteFault w (keyToCidKey e p contextID)) eqn:E1; simpl;
    [left; eexists _, _; split; [reflexivity | by left] |].
  destruct (deleteFault w (cidToProviderAndKeyKey c)) eqn:E2; simpl;
    [left; eexists _, _; split; [reflexivity | right; by left] |].
  destruct (deleteFault w (cidToKeyKey c)) eqn:E3; simpl;
    [left; eexists _, _; split; [reflexivity | right; right; by left] |].
  destruct (deleteFault w (keyToMetadataKey e p contextID)) eqn:E4; simpl;
    [left; eexists _, _; split; [reflexivity | right; right; by right] |].
  right. eexists. split; [reflexivity |]. simpl. by repeat split.
Qed.

Lemma deleted_rows (d : gmap Key bytes) (k1 k2 k3 k4 k : Key) :
  k = k1 \/ k = k2 \/ k = k3 \/ k = k4 ->
  delete k4 (delete k3 (delete k2 (delete k1 d))) !! k = None.
Proof.
  intros [-> | [-> | [-> | ->]]]; rewrite !lookup_delete_None; auto 10.
Qed.

(** C4.  A removal that finds an entries CID [c] in the forward index
    and publishes its advertisement has deleted the forward row, both
    reverse rows of [c] (the new one and the legacy one) and the
    metadata row: the four deletions are in its trace, and none of these
    rows is in the datastore afterwards (the latest-head row, which the
    call writes last, apart).  The advertisement it stored has the
    [NoEntries] link as entries, [IsRm] set, and as metadata the
    encoding of the empty metadata, and it passed the validation. *)
Theorem removal_deletes_index_rows (s s' : State) (p : peerID)
    (addrs : list Multiaddr) (contextID : bytes) (md : Metadata) (c adCid : Cid) :
  entriesCid e w s p contextID c ->
  run w (publishAdvForIndex e p addrs contextID md true) s = Done (adCid, None) s' ->
  (forall k, In k (indexRows e p contextID c) -> In (EvDelete k) (newEvents s s'))
  /\ (forall k, In k (indexRows e p contextID c) ->
                k <> dsLatestAdvKey -> ds s' !! k = None)
  /\ exists adv mdBytes,
       blocks s' !! adCid = Some adv
       /\ Entries adv = NoEntries /\ IsRm adv = true
       /\ MetadataMarshalBinary emptyMetadata = Ok mdBytes
       /\ AdMetadata adv = mdBytes
       /\ AdValidate adv = None.
Proof.
  intros He E.
  destruct (removal_run s p addrs contextID md c He)
    as [(err & s1 & E1 & _) | (s2 & E2 & Hds & Hbl & Htr)]; [congruence |].
  rewrite E2 in E.
  pose proof (finish_run e w s2 p addrs contextID true NoEntries emptyMetadata) as HF.
  rewrite E in HF.
  destruct HF as (adv & mdBytes & Hm & -> & Hbl' & Hds' & _ & Hen & Hrm & Hmd
                  & _ & _ & _ & Hval).
  destruct (run_trace w _ _ _ _ E) as (evs & Htr').
  repeat split.
  - intros k Hin. rewrite Htr, app_assoc in Htr'.
    rewrite (newEvents_app _ _ _ Htr'), <- in_rev.
    apply in_or_app. right. unfold indexRows in Hin. simpl in *.
    intuition (subst; auto).
  - intros k Hin Hne. rewrite Hds', lookup_insert_ne, Hds by congruence.
    apply deleted_rows. unfold indexRows in Hin. simpl in Hin. intuition auto.
  - exists adv, mdBytes. rewrite Hbl', lookup_insert_eq. by repeat split.
Qed.


(** Rows are only added by a program that deletes none. *)
Lemma always_noDelete {A : Type} (p0 : Prog A) :
  always noDelete p0 ->
  forall s r s', run w p0 s = Done r s' ->
  (forall k, is_Some (ds s !! k) -> is_Some (ds s' !! k))
  /\ (forall k v, In (EvPut k v) (newEvents s s') -> putFault w k = None ->
                  is_Some (ds s' !! k)).
Proof.
  intros HP s r s' E.
  assert ((forall k, is_Some (ds s !! k) -> is_Some (ds s' !! k))
          /\ exists evs, trace s' = (evs ++ trace s)%list
                         /\ forall k v, In (EvPut k v) evs -> putFault w k = None ->
                                        is_Some (ds s' !! k)) as (Hmono & evs & Et & Hput).
  { revert s HP E. induction p0 as [a | a k IH]; simpl; intros s HP E.
    - inversion E; subst. split; [auto |]. exists []. split; [reflexivity | intros ? ? []].
    - destruct HP as [Pa Pk].
      destruct (exec w a s) as [x s1| |] eqn:Ex; try discriminate.
      destruct (IH x _ (Pk x) E) as (Hm2 & e2 & E2 & H2).
      pose proof (exec_event w _ _ _ _ Ex) as Etr.
      assert (forall j, is_Some (ds s !! j) -> is_Some (ds s1 !! j)) as Hm1.
      { intros j Hs. destruct a; simpl in Ex, Pa; try done;
          repeat match type of Ex with
                 | context [match ?c with _ => _ end] => destruct c
                 end;
          inversion Ex; subst; simpl; auto.
        rewrite lookup_insert_is_Some'. by right. }
      split; [auto |].
      destruct (eventOf a) as [ev1|] eqn:Eev.
      + exists (e2 ++ [ev1])%list. split; [by rewrite E2, Etr, <- app_assoc |].
        intros j v Hin Hpf. apply in_app_or in Hin as [Hin | [-> | []]]; [eauto |].
        apply Hm2. destruct a; try discriminate. simpl in Eev, Ex.
        injection Eev as -> ->. rewrite Hpf in Ex. inversion Ex; subst; simpl.
        rewrite lookup_insert_eq. eauto.
      + exists e2. split; [by rewrite E2, Etr | auto]. }
  split; [exact Hmono |].
  intros k v Hin. rewrite (newEvents_app _ _ _ Et), <- in_rev in Hin. eauto.
Qed.

Lemma put_mode_noDelete (p : peerID) (addrs : list Multiaddr) (contextID : bytes)
    (md : Metadata) :
  always noDelete (publishAdvForIndex e p addrs contextID md false).
Proof. engine. cbn [negb]. paths; exact I. Qed.


(** C10.  [publishAdvForIndex] does not undo the changes of the index
    when a later step fails.  A removal whose deletions succeeded and
    which then fails (in encoding the metadata, reading the head,
    signing, validating or storing the advertisement) leaves the
    forward, reverse and metadata rows deleted, so that the same removal
    tried again fails with [ErrContextIDNotFound]; and a put that fails
    leaves in the datastore every row it wrote. *)
Theorem failed_publish_is_not_rolled_back (w2 : World) (s s' : State) (p : peerID)
    (addrs : list Multiaddr) (contextID : bytes) (md : Metadata) :
  (forall c r err,
     entriesCid e w s p contextID c ->
     (forall k, In k (indexRows e p contextID c) -> deleteFault w k = None) ->
     run w (publishAdvForIndex e p addrs contextID md true) s = Done (r, Some err) s' ->
     (forall k, In k (indexRows e p contextID c) -> ds s' !! k = None)
     /\ (getFault w2 (keyToCidKey e p contextID) = None ->
         exists s'', run w2 (publishAdvForIndex e p addrs contextID md true) s'
                     = Done (CidUndef, Some ErrContextIDNotFound) s''))
  /\ (forall r err,
        run w (publishAdvForIndex e p addrs contextID md false) s = Done (r, Some err) s' ->
        forall k v, In (EvPut k v) (newEvents s s') -> putFault w k = None ->
                    is_Some (ds s' !! k)).
Proof.
  split.
  - intros c r err He Hdel E.
    destruct (removal_run s p addrs contextID md c He)
      as [(err1 & s1 & _ & Hf) | (s2 & E2 & Hds & _)].
    { unfold indexRows in Hdel. simpl in Hdel.
      destruct Hf as [Hf | [Hf | [Hf | Hf]]]; destruct Hf; apply Hdel; auto. }
    rewrite E2 in E.
    pose proof (finish_run e w s2 p addrs contextID true NoEntries emptyMetadata) as HF.
    rewrite E in HF. destruct HF as [_ Hds'].
    assert (forall k, In k (indexRows e p contextID c) -> ds s' !! k = None) as Hrows.
    { intros k Hin. rewrite Hds', Hds. apply deleted_rows.
      unfold indexRows in Hin. simpl in Hin. intuition auto. }
    split; [exact Hrows |].
    intros Hg2. engine. simpl. rewrite Hg2, Hrows by (unfold indexRows; simpl; auto).
    simpl. eauto.
  - intros r err E. apply (always_noDelete _ (put_mode_noDelete p addrs contextID md) _ _ _ E).
Qed.

End Removal.

Section ReverseIndex.
Context `{Externals}.
Variables (e : options) (w : World).




End ReverseIndex.

Section EmptyChunk.
Context `{Externals}.
Variables (e : options) (w : World).




End EmptyChunk.

(** ** The [list] command *)

Lemma drainChunks_all (chunks : list (list Multihash)) (more : bool) (n : nat) :
  drainChunks chunks more n
  = (concat chunks, if more then Some ErrNotFound else None, n + length chunks).
Proof.
  revert n. induction chunks as [| chunk chunks IH]; intros n; simpl.
  - by rewrite Nat.add_0_r.
  - rewrite IH. f_equal. lia.
Qed.

(** Looks for an element in a concatenation of lists. *)
Ltac find_in :=
  solve [ simpl; auto 12
        | apply in_map; assumption
        | apply in_or_app; left; find_in
        | apply in_or_app; right; find_in ].

(** C9.  For an advertisement whose chain of entry chunks is longer
    than the recursion depth, [Drain] returns the multihashes of the
    chunks within the depth together with [datastore.ErrNotFound], and
    [ChunkCount] is then the number of chunks within the depth;
    [doGetAdvertisements] takes that condition as a note to print, not
    as an error: it prints the counts, the entries when asked to, and
    the note, and returns nil. *)
Theorem Drain_signals_truncation (depth : nat) (chain : list (list Multihash)) :
  depth < length chain ->
  exists it',
    Drain (entriesWithin depth chain) = (concat (take depth chain), Some ErrNotFound, it')
    /\ ChunkCount it' = depth
    /\ forall ad printEntries,
         adEntries ad = entriesWithin depth chain ->
         exists out,
           doGetAdvertisements (Ok ad) printEntries = (out, None)
           /\ In (LineChunkCount depth) out
           /\ In (LineTotalCount (length (concat (take depth chain)))) out
           /\ In (LineText truncationNote) out
           /\ (printEntries = true ->
               forall mh, In mh (concat (take depth chain)) -> In (LineEntry mh) out).
Proof.
  intros Hd.
  assert (Drain (entriesWithin depth chain)
          = (concat (take depth chain), Some ErrNotFound,
             mkEntriesIterator [] true depth)) as ED.
  { unfold Drain, entriesWithin. simpl. rewrite drainChunks_all.
    rewrite length_take, Nat.min_l by lia.
    destruct (depth <? length chain)%nat eqn:El; [reflexivity |].
    apply Nat.ltb_ge in El. lia. }
  eexists. split; [exact ED |]. split; [reflexivity |].
  intros ad printEntries Hit. unfold doGetAdvertisements. rewrite Hit, ED.
  simpl. destruct printEntries; simpl; eexists; (split; [reflexivity |]).
  - split; [| split; [| split]]; do 6 right; find_in.
  - split; [| split; [| split]]; try find_in. intros [=].
Qed.

(** * Further properties of the engine *)

Section ReadBack.
Context `{Externals}.
Variables (e : options) (missing : error).

(** What [GetLatestAdv] gives when the head row holds the bytes of a CID
    that the link system has the advertisement of. *)
Lemma GetLatestAdv_reads_head (w : World) (s : State) (c : Cid) (adv : Advertisement) :
  getFault w dsLatestAdvKey = None ->
  ds s !! dsLatestAdvKey = Some (CidBytes c) ->
  CidFromBytes (CidBytes c) = Ok c -> c <> CidUndef ->
  blocks s !! c = Some adv ->
  exists s', GetLatestAdv missing w s = Done (c, Some adv, None) s'
             /\ ds s' = ds s /\ blocks s' = blocks s.
Proof.
  intros Hg Hd Hrt Hc Hb. unfold GetLatestAdv, getLatestAdCid, logMsg. simpl.
  rewrite Hg, Hd, Hrt. simpl. destruct (decide (c = CidUndef)); [done |].
  unfold GetAdv, lsysLoad. simpl. rewrite Hb. eauto.
Qed.

(** X1.  After a notification that succeeded with the CID [c],
    [GetLatestAdv] returns [c] and the advertisement the notification
    stored, which is linked to the head before the call, and [GetAdv]
    of [c] returns the same advertisement.  This for a notification
    whose rows of the index are kept under other keys than the
    latest-head row, with links that survive the round trip through
    their bytes and a failure of the read of the head that shows. *)
Theorem GetLatestAdv_after_notification (w w2 : World) (cl : call) (s s' : State)
    (c : Cid) :
  linksRoundTrip -> headFaultsShow w ->
  headKeyApart e (subject e cl).1 (subject e cl).2 ->
  getFault w2 dsLatestAdvKey = None ->
  run w (perform e cl) s = Done (c, None) s' ->
  exists adv s'',
    GetLatestAdv missing w2 s' = Done (c, Some adv, None) s''
    /\ (GetAdv missing c s').1 = (Some adv, None)
    /\ PreviousID adv = linkTo (headCid s)
    /\ ds s'' = ds s' /\ blocks s'' = blocks s'.
Proof.
  intros Hrt Hf Hk Hg E.
  destruct (perform_subject e cl) as (addrs & md & isRm & Ep). rewrite Ep in E.
  pose proof (publish_step e w s _ addrs _ md isRm Hk Hf) as HS. rewrite E in HS.
  destruct HS as (adv & -> & Hb & Hp & Hd).
  destruct (Hrt adv) as [Hne Hl].
  destruct (GetLatestAdv_reads_head w2 s' _ adv Hg Hd Hl Hne Hb) as (s'' & EL & Hds & Hbl).
  exists adv, s''. repeat split; auto.
  unfold GetAdv, lsysLoad. simpl. by rewrite Hb.
Qed.


(** X3.  [GetLatestAdv] of an engine that has no latest-head row returns
    [cid.Undef], no advertisement and no error, without an error line;
    when the row names a CID the link system has no node for, it returns
    an error, and [cid.Undef] rather than the CID of the row. *)
Theorem GetLatestAdv_without_advertisement (w : World) (s : State) :
  getFault w dsLatestAdvKey = None ->
  (ds s !! dsLatestAdvKey = None ->
   exists s', GetLatestAdv missing w s = Done (CidUndef, None, None) s'
              /\ newEvents s s' = [EvLog Info "Getting latest advertisement";
                                   EvGet dsLatestAdvKey])
  /\ (forall b c,
        ds s !! dsLatestAdvKey = Some b -> CidFromBytes b = Ok c -> c <> CidUndef ->
        blocks s !! c = None ->
        exists s',
          GetLatestAdv missing w s
          = Done (CidUndef, None,
                  Some (Errorf "count not get latest advertisement from blockstore by cid: %s"
                          false
                          (Errorf "cannot load advertisement from blockstore with vanilla linksystem: %s"
                             false missing))) s').
Proof.
  intros Hg. split.
  - intros Hd. unfold GetLatestAdv, getLatestAdCid, logMsg. simpl.
    rewrite Hg, Hd. simpl. eexists. split; [reflexivity |].
    by erewrite newEvents_app with (evs := [_; _]).
  - intros b c Hd Hb Hc Hbl. unfold GetLatestAdv, getLatestAdCid, logMsg. simpl.
    rewrite Hg, Hd, Hb. simpl. destruct (decide (c = CidUndef)); [done |].
    unfold GetAdv, lsysLoad. simpl. rewrite Hbl. by eexists.
Qed.

End ReadBack.

(** An error is not one of its own wrappers. *)
Lemma Errorf_not_self (x : error) (f : string) (b : bool) : Errorf f b x <> x.
Proof.
  revert f b. induction x; intros f b; try discriminate.
  intros [= _ _ Hx]. by eapply IHx.
Qed.

Lemma Errorf2_not_self (x : error) (f g : string) (b c : bool) :
  Errorf f b (Errorf g c x) <> x.
Proof.
  revert f g b c. induction x; intros f g b c; try discriminate.
  intros [= _ _ Hx]. by eapply IHx.
Qed.

Lemma errorsIs_refl (x : error) : errorsIs x x = true.
Proof.
  destruct x; cbn [errorsIs]; by rewrite bool_decide_eq_true_2.
Qed.

(** Inverts a run that is known to have returned: splits on every value
    the run waited for, and drops the paths that returned otherwise. *)
Ltac invert_run E :=
  repeat (simpl in E;
          match type of E with
          | context [match ?x with _ => _ end] =>
            lazymatch x with
            | context [match _ with _ => _ end] => fail
            | _ => destruct x eqn:?
            end
          end);
  simpl in E; try discriminate.

Section PublishFailures.
Context `{Externals}.
Variables (e : options) (w : World).

(** X4.  The two storage failures of [Publish].  When the head cannot
    be updated, the advertisement stays in the link system (the store is
    not undone), the head row is as it was, and the error returned wraps
    the error of the datastore, which [errors.Is] finds.  When the link
    system cannot store the node, nothing is stored or written, and the
    cause is only quoted in the message: [errors.Is] does not find it. *)
Theorem Publish_storage_failures (s : State) (adv : Advertisement) (cause : error) :
  AdValidate adv = None -> AdToNode adv = None ->
  (storeFault w adv = None -> putFault w dsLatestAdvKey = Some cause ->
   exists err s', run w (Publish e adv) s = Done (CidUndef, Some err) s'
                  /\ errorsIs err cause = true
                  /\ blocks s' !! LinkOf adv = Some adv
                  /\ ds s' = ds s)
  /\ (storeFault w adv = Some cause ->
      exists err s', run w (Publish e adv) s = Done (CidUndef, Some err) s'
                     /\ errorsIs err cause = false
                     /\ blocks s' = blocks s /\ ds s' = ds s).
Proof.
  intros Hv Hn. split.
  - intros Hs Hp. unfold Publish, PublishLocal, putLatestAdv, logMsg. simpl.
    rewrite Hv, Hn. simpl. rewrite Hs. simpl. rewrite Hp. simpl.
    eexists _, _. split; [reflexivity |]. simpl. repeat split.
    + by rewrite errorsIs_refl, !orb_true_r.
    + by rewrite lookup_insert_eq.
  - intros Hs. unfold Publish, PublishLocal, putLatestAdv, logMsg. simpl.
    rewrite Hv, Hn. simpl. rewrite Hs. simpl.
    eexists _, _. split; [reflexivity |]. simpl. repeat split.
    rewrite !bool_decide_eq_false_2; [reflexivity | |].
    + apply Errorf_not_self.
    + apply Errorf2_not_self.
Qed.

End PublishFailures.

Section Notifications.
Context `{Externals}.
Variables (e : options) (w : World).

(** A successful call went through the read of the forward index, one
    of the two branches, and the rest of the function. *)
Lemma publish_reaches_finish (s s' : State) (p : peerID) (addrs : list Multiaddr)
    (contextID : bytes) (md : Metadata) (isRm : bool) (adCid : Cid) :
  run w (publishAdvForIndex e p addrs contextID md isRm) s = Done (adCid, None) s' ->
  exists c err s1 s2 cidsLnk md',
    run w (getKeyCidMap e p contextID) s = Done (c, err) s1
    /\ run w (if negb isRm then publishAdvForIndex_put e p contextID md c
              else publishAdvForIndex_rm e p contextID c) s1
       = Done (inl (cidsLnk, md')) s2
    /\ run w (publishAdvForIndex_finish e p addrs contextID isRm cidsLnk md') s2
       = Done (adCid, None) s'.
Proof.
  unfold publishAdvForIndex. rewrite run_bind.
  destruct (run w (getKeyCidMap e p contextID) s) as [[c err] s1 | |] eqn:E1;
    try discriminate.
  destruct (match err with
            | Some err0 => if decide (err0 = ErrNotFound) then None else Some err0
            | None => None
            end); [discriminate |].
  rewrite run_bind.
  destruct (run w (if negb isRm then _ else _) s1) as [[[cidsLnk md'] | early] s2 | |] eqn:E2;
    try discriminate.
  - intros E. exists c, err, s1, s2, cidsLnk, md'. by repeat split.
  - simpl. intros [= -> <-].
    assert (earlyIsError (inr (adCid, None))) as Hearly.
    { eapply returns_run; [| exact E2].
      destruct (negb isRm); [apply put_returns | apply rm_returns]. }
    by destruct (Hearly _ _ eq_refl).
Qed.

(** The metadata a branch goes on with. *)
Lemma put_inl_returns (p : peerID) (contextID : bytes) (md : Metadata) (c : Cid) :
  returns (fun r => forall l m, r = inl (l, m) -> m = md)
          (publishAdvForIndex_put e p contextID md c).
Proof.
  unfold publishAdvForIndex_put, putKeyMetadataMap.
  results; intros ? ? [=]; subst; done.
Qed.

Lemma rm_inl_returns (p : peerID) (contextID : bytes) (c : Cid) :
  returns (fun r => forall l m, r = inl (l, m) -> l = NoEntries /\ m = emptyMetadata)
          (publishAdvForIndex_rm e p contextID c).
Proof.
  unfold publishAdvForIndex_rm, deleteKeyCidMap, deleteCidKeyMap, deleteKeyMetadataMap.
  results; intros ? ? [=]; subst; done.
Qed.

(** The read of the forward index leaves the state as it was, but for
    the trace, and returns the CID the row decodes to. *)
Lemma getKeyCidMap_run (s s1 : State) (p : peerID) (contextID : bytes) (c : Cid)
    (err : option error) :
  run w (getKeyCidMap e p contextID) s = Done (c, err) s1 ->
  s1 = record (EvGet (keyToCidKey e p contextID)) s
  /\ (c <> CidUndef ->
      exists b, ds s !! keyToCidKey e p contextID = Some b /\ CidFromBytes b = Ok c).
Proof.
  unfold getKeyCidMap. intros E. invert_run E; inversion E; subst; split; try done.
  eauto.
Qed.

(** What the put branch leaves in the index when it falls through. *)
Lemma put_branch_rows (s s2 : State) (p : peerID) (contextID : bytes) (md md' : Metadata)
    (c cidsLnk : Cid) :
  rowsApart e p contextID -> entriesRoundTrip ->
  (c <> CidUndef ->
   exists b, ds s !! keyToCidKey e p contextID = Some b /\ CidFromBytes b = Ok c) ->
  run w (publishAdvForIndex_put e p contextID md c) s = Done (inl (cidsLnk, md')) s2 ->
  md' = md /\ cidsLnk <> CidUndef
  /\ (c <> CidUndef -> cidsLnk = c /\ ds s2 !! keyToCidKey e p contextID
                                      = ds s !! keyToCidKey e p contextID)
  /\ (exists b, ds s2 !! keyToCidKey e p contextID = Some b /\ CidFromBytes b = Ok cidsLnk)
  /\ (exists data, MetadataMarshalBinary md = Ok data
                   /\ ds s2 !! keyToMetadataKey e p contextID = Some data)
  /\ blocks s2 = blocks s
  /\ ds s2 !! dsLatestAdvKey = ds s !! dsLatestAdvKey.
Proof.
  intros (Hk1 & Hk2 & Hk3 & Hk4) Hrt Hrow E.
  unfold publishAdvForIndex_put, putKeyCidMap, putKeyMetadataMap, getKeyMetadataMap,
    logMsg in E.
  destruct (decide (c = CidUndef)) as [-> | Hc].
  - invert_run E; inversion E; subst; clear E; simpl;
      match goal with
      | |- context [cidToProviderAndKeyKey ?l] =>
        destruct (Hk4 l) as (Hr1 & Hr2 & Hr3);
        assert (entriesLink l) as Hl by (first [by left | right; eexists; eassumption]);
        destruct (Hrt l Hl) as [Hdef Hback]
      end;
      repeat (rewrite lookup_insert_eq || rewrite lookup_insert_ne by congruence);
      (split; [done |]);
      (split; [exact Hdef |]);
      (split; [done |]);
      (split; [eexists; split; [reflexivity | exact Hback] |]);
      (split; [by eexists |]); by split.
  - destruct (Hrow Hc) as (b & Hb1 & Hb2).
    invert_run E; inversion E; subst; clear E; simpl;
      repeat (rewrite lookup_insert_eq || rewrite lookup_insert_ne by congruence);
      repeat split; eauto.
Qed.



Lemma already_advertised_run (w2 : World) (s : State) (p : peerID)
    (addrs : list Multiaddr) (contextID : bytes) (md prev : Metadata) (c : Cid) :
  entriesCid e w2 s p contextID c -> storedMetadata e w2 s p contextID prev ->
  MetadataEqual md prev = true ->
  exists s', run w2 (publishAdvForIndex e p addrs contextID md false) s
             = Done (CidUndef, Some ErrAlreadyAdvertised) s'
             /\ ds s' = ds s /\ blocks s' = blocks s.
Proof.
  intros (Hg & Hc & b & Hk & Hb) (Hg' & data & Hm & Hu) Heq.
  engine. simpl. rewrite Hg, Hk, Hb. simpl.
  destruct (decide (c = CidUndef)); [done |]. simpl.
  rewrite Hg', Hm, Hu. simpl. rewrite Heq.
  eexists. repeat split; reflexivity.
Qed.

(** X5.  A notification of a put that succeeded, given again with the
    same provider, context ID and metadata, changes nothing: it returns
    [cid.Undef] and [ErrAlreadyAdvertised], and leaves the datastore, the
    head with it, and the link system as they were. *)
Theorem NotifyPut_twice (w2 : World) (s s' : State) (prov : option AddrInfo)
    (contextID : bytes) (md : Metadata) (adCid : Cid) :
  let p := (subject e (CallNotifyPut prov contextID md)).1 in
  rowsApart e p contextID -> entriesRoundTrip -> metadataRoundTrips md ->
  getFault w2 (keyToCidKey e p contextID) = None ->
  getFault w2 (keyToMetadataKey e p contextID) = None ->
  run w (NotifyPut e prov contextID md) s = Done (adCid, None) s' ->
  exists s'', run w2 (NotifyPut e prov contextID md) s'
              = Done (CidUndef, Some ErrAlreadyAdvertised) s''
              /\ ds s'' = ds s' /\ blocks s'' = blocks s'.
Proof.
  intros p Hk Hrt Hmd Hg1 Hg2 E.
  assert (exists addrs, NotifyPut e prov contextID md
                        = publishAdvForIndex e p addrs contextID md false) as [addrs EN].
  { unfold NotifyPut, p. destruct prov; simpl; eauto. }
  rewrite EN in *.
  destruct (publish_reaches_finish _ _ _ _ _ _ _ _ E)
    as (c & err & s1 & s2 & cidsLnk & md' & E1 & E2 & E3).
  destruct (getKeyCidMap_run _ _ _ _ _ _ E1) as [-> Hrow]. cbn [negb] in E2.
  destruct (put_branch_rows (record (EvGet (keyToCidKey e p contextID)) s) s2 p contextID
              md md' c cidsLnk Hk Hrt Hrow E2)
    as (-> & Hne & _ & (b & Hb1 & Hb2) & (data & Hd1 & Hd2) & _).
  pose proof (finish_run e w s2 p addrs contextID false cidsLnk md) as HF.
  rewrite E3 in HF. destruct HF as (adv & _ & _ & _ & _ & Hds & _).
  destruct Hk as (_ & Hk2 & Hk3 & _).
  destruct (Hmd data Hd1) as (prev & Hu & Heq).
  apply (already_advertised_run w2 s' p addrs contextID md prev cidsLnk).
  - split; [exact Hg1 |]. split; [exact Hne |]. exists b.
    rewrite Hds, lookup_insert_ne by congruence. by split.
  - split; [exact Hg2 |]. exists data.
    rewrite Hds, lookup_insert_ne by congruence. by split.
  - exact Heq.
Qed.


(** X7.  After a removal that succeeded, of a context whose forward
    row is kept under another key than the latest-head row, the context
    is unknown again: the forward row is gone, the same removal fails
    with [ErrContextIDNotFound], and a put for the context is a new one
    that needs the lister, failing with [ErrNoMultihashLister] when none
    is registered, whatever its metadata. *)
Theorem context_is_unknown_after_removal (w2 : World) (s s' : State) (p : peerID)
    (addrs : list Multiaddr) (contextID : bytes) (md : Metadata) (c adCid : Cid) :
  entriesCid e w s p contextID c ->
  keyToCidKey e p contextID <> dsLatestAdvKey ->
  getFault w2 (keyToCidKey e p contextID) = None ->
  run w (publishAdvForIndex e p addrs contextID md true) s = Done (adCid, None) s' ->
  ds s' !! keyToCidKey e p contextID = None
  /\ (forall addrs2 md2,
        exists s'', run w2 (publishAdvForIndex e p addrs2 contextID md2 true) s'
                    = Done (CidUndef, Some ErrContextIDNotFound) s'')
  /\ (forall addrs2 md2,
        mhLister s' = None ->
        exists s'', run w2 (publishAdvForIndex e p addrs2 contextID md2 false) s'
                    = Done (CidUndef, Some ErrNoMultihashLister) s'').
Proof.
  intros He Hk Hg E.
  destruct (removal_run e w s p addrs contextID md c He)
    as [(err & s1 & E1 & _) | (s2 & E2 & Hds & _)]; [congruence |].
  rewrite E2 in E.
  pose proof (finish_run e w s2 p addrs contextID true NoEntries emptyMetadata) as HF.
  rewrite E in HF. destruct HF as (adv & _ & _ & _ & _ & Hds' & _).
  assert (ds s' !! keyToCidKey e p contextID = None) as Hrow.
  { rewrite Hds', lookup_insert_ne, Hds by congruence. apply deleted_rows. auto. }
  split; [exact Hrow |]. split.
  - intros addrs2 md2. engine. simpl. rewrite Hg, Hrow. simpl. eauto.
  - intros addrs2 md2 Hl. engine. simpl. rewrite Hg, Hrow. simpl. rewrite Hl. eauto.
Qed.

(** X8.  A failure of the read of the forward index is returned, and
    stops the call before it writes anything.  The error is compared
    with [datastore.ErrNotFound] itself: an error that only wraps it is
    such a failure, not the absence of the row; and so is the error of
    decoding a row that does not hold a CID. *)
Theorem forward_index_failure_is_returned (s : State) (p : peerID)
    (addrs : list Multiaddr) (contextID : bytes) (md : Metadata) (isRm : bool)
    (err : error) :
  err <> ErrNotFound ->
  getFault w (keyToCidKey e p contextID) = Some err
  \/ (getFault w (keyToCidKey e p contextID) = None
      /\ exists b, ds s !! keyToCidKey e p contextID = Some b
                   /\ CidFromBytes b = Err err) ->
  exists s',
    run w (publishAdvForIndex e p addrs contextID md isRm) s
    = Done (CidUndef,
            Some (Errorf "cound not not get entries cid by provider + context id: %s"
                         false err)) s'
    /\ newEvents s s' = [EvGet (keyToCidKey e p contextID)]
    /\ ds s' = ds s /\ blocks s' = blocks s.
Proof.
  intros Hne Hcase. unfold publishAdvForIndex, getKeyCidMap. simpl.
  destruct Hcase as [Hg | (Hg & b & Hk & Hb)].
  - rewrite Hg. simpl. destruct (decide (err = ErrNotFound)); [done |]. simpl.
    eexists. split; [reflexivity |]. split; [| done].
    by erewrite newEvents_app with (evs := [_]).
  - rewrite Hg, Hk, Hb. simpl. destruct (decide (err = ErrNotFound)); [done |]. simpl.
    eexists. split; [reflexivity |]. split; [| done].
    by erewrite newEvents_app with (evs := [_]).
Qed.

End Notifications.

Section Advertised.
Context `{Externals}.
Variables (e : options) (w : World).

(** What [Publish] stores when it succeeds. *)
Lemma Publish_stores (s s' : State) (adv : Advertisement) (c : Cid) :
  run w (Publish e adv) s = Done (c, None) s' ->
  blocks s' !! c = Some adv /\ AdValidate adv = None.
Proof.
  intros E. pose proof (Publish_run e w s adv) as HP. rewrite E in HP.
  destruct HP as (_ & -> & _ & Hv). by rewrite lookup_insert_eq.
Qed.

(** The advertisement of a successful call is the one assembled from the
    arguments, with the link to the head the call read, signed with the
    key of the engine after the link was set. *)
Lemma finish_signs (s s' : State) (p : peerID) (addrs : list Multiaddr)
    (contextID : bytes) (isRm : bool) (cidsLnk : Cid) (md : Metadata) (adCid : Cid) :
  run w (publishAdvForIndex_finish e p addrs contextID isRm cidsLnk md) s
  = Done (adCid, None) s' ->
  exists prev sig data,
    let unsigned := mkAdvertisement prev (PeerString p) (map MultiaddrString addrs) ""
                                    cidsLnk contextID data isRm in
    MetadataMarshalBinary md = Ok data
    /\ AdSign unsigned (key e) = Ok sig
    /\ blocks s' !! adCid = Some (withSignature unsigned sig)
    /\ AdValidate (withSignature unsigned sig) = None.
Proof.
  unfold publishAdvForIndex_finish. intros E.
  destruct (MetadataMarshalBinary md) as [data | err] eqn:Em; [| discriminate].
  cbv zeta in E. rewrite run_bind in E.
  destruct (getLatestAdCid_run w s) as ([prev err] & Eg & _). rewrite Eg in E.
  destruct err; [discriminate |].
  destruct (decide (prev = CidUndef)); simpl in E.
  - destruct (AdSign _ (key e)) as [sig | err] eqn:Es; [| discriminate].
    apply Publish_stores in E as [Hb Hv]. exists None, sig, data. cbv zeta.
    by repeat split.
  - destruct (AdSign _ (key e)) as [sig | err] eqn:Es; [| discriminate].
    apply Publish_stores in E as [Hb Hv]. exists (Some prev), sig, data. cbv zeta.
    by repeat split.
Qed.

(** X9.  The advertisement of a successful notification.  It names the
    provider of the call; its addresses are those of the provider given
    to [NotifyPut], those of the engine when none is given, and none at
    all for [NotifyRemove]; it has the context ID of the call and the
    encoding of its metadata (of the empty metadata for a removal), and
    [IsRm] tells a removal.  Its signature is the one the key of the
    engine gives for that advertisement without a signature, with the
    link to the previous advertisement in it; and it passed the
    validation. *)
Theorem notification_advertisement (cl : call) (s s' : State) (adCid : Cid) :
  run w (perform e cl) s = Done (adCid, None) s' ->
  exists prev sig entries data,
    let unsigned :=
      mkAdvertisement prev (PeerString (subject e cl).1)
        (map MultiaddrString
             match cl with
             | CallNotifyPut (Some prov) _ _ => aiAddrs prov
             | CallNotifyPut None _ _ => aiAddrs (provider e)
             | CallNotifyRemove _ _ => []
             end)
        "" entries (subject e cl).2 data
        match cl with
        | CallNotifyPut _ _ _ => false
        | CallNotifyRemove _ _ => true
        end in
    blocks s' !! adCid = Some (withSignature unsigned sig)
    /\ AdSign unsigned (key e) = Ok sig
    /\ AdValidate (withSignature unsigned sig) = None
    /\ MetadataMarshalBinary match cl with
                             | CallNotifyPut _ _ md => md
                             | CallNotifyRemove _ _ => emptyMetadata
                             end = Ok data
    /\ match cl with
       | CallNotifyPut _ _ _ => True
       | CallNotifyRemove _ _ => entries = NoEntries
       end.
Proof.
  intros E.
  assert (forall p addrs contextID md isRm,
            run w (publishAdvForIndex e p addrs contextID md isRm) s = Done (adCid, None) s' ->
            exists prev sig entries data,
              blocks s' !! adCid
              = Some (withSignature
                        (mkAdvertisement prev (PeerString p) (map MultiaddrString addrs) ""
                                         entries contextID data isRm) sig)
              /\ AdSign (mkAdvertisement prev (PeerString p) (map MultiaddrString addrs) ""
                                         entries contextID data isRm) (key e) = Ok sig
              /\ AdValidate (withSignature
                               (mkAdvertisement prev (PeerString p)
                                                (map MultiaddrString addrs) ""
                                                entries contextID data isRm) sig) = None
              /\ MetadataMarshalBinary (if isRm then emptyMetadata else md) = Ok data
              /\ (isRm = true -> entries = NoEntries)) as Hgen.
  { intros p addrs contextID md isRm E0.
    destruct (publish_reaches_finish e w _ _ _ _ _ _ _ _ E0)
      as (c & err & s1 & s2 & cidsLnk & md' & E1 & E2 & E3).
    destruct (finish_signs _ _ _ _ _ _ _ _ _ E3) as (prev & sig & data & Hm & Hs & Hb & Hv).
    exists prev, sig, cidsLnk, data. repeat split; auto.
    - destruct isRm; cbn [negb] in E2.
      + pose proof (returns_run w _ _ (rm_inl_returns e p contextID c) _ _ _ E2) as HR.
        destruct (HR _ _ eq_refl) as [_ ->]. exact Hm.
      + pose proof (returns_run w _ _ (put_inl_returns e p contextID md c) _ _ _ E2) as HR.
        by rewrite <- (HR _ _ eq_refl).
    - intros ->. cbn [negb] in E2.
      pose proof (returns_run w _ _ (rm_inl_returns e p contextID c) _ _ _ E2) as HR.
      by destruct (HR _ _ eq_refl) as [-> _]. }
  destruct cl as [[prov|] contextID md | prov contextID];
    cbn [perform] in E; unfold NotifyPut, NotifyRemove in E; cbv zeta in E;
    apply Hgen in E as (prev & sig & entries & data & Hb & Hs & Hv & Hm & Hn);
    exists prev, sig, entries, data; cbv zeta; cbn [subject fst snd];
    repeat split; auto.
Qed.

End Advertised.

Section Lifecycle.
Context `{Externals}.
Variables (e : options) (w : World).

Lemma exec_setLister (l : option MultihashLister) (a : action) (s : State) :
  listerFree a ->
  exec w a (setLister l s)
  = match exec w a s with
    | Answer x s' => Answer x (setLister l s')
    | Panics => Panics
    | Blocks => Blocks
    end.
Proof.
  destruct a; simpl; try done; intros _;
    repeat match goal with
           | |- context [match ?c with _ => _ end] => destruct c
           end; reflexivity.
Qed.

(** A program that does not touch the lister runs the same whatever
    lister is registered. *)
Lemma run_setLister {A : Type} (l : option MultihashLister) (p : Prog A) (s : State) :
  always listerFree p ->
  run w p (setLister l s) = onState (setLister l) (run w p s).
Proof.
  revert s. induction p as [a | a k IH]; simpl; intros s HP; [reflexivity |].
  destruct HP as [Pa Pk]. rewrite (exec_setLister l a s Pa).
  destruct (exec w a s) as [x s1| |]; simpl; auto.
Qed.

Lemma removal_listerFree (p : peerID) (addrs : list Multiaddr) (contextID : bytes)
    (md : Metadata) :
  always listerFree (publishAdvForIndex e p addrs contextID md true).
Proof. engine. cbn [negb]. paths; exact I. Qed.

(** X10.  [NotifyRemove] does not use the multihash lister: registered
    or not, and whatever it is, the call returns the same, and leaves
    the same datastore, link system and trace. *)
Theorem NotifyRemove_ignores_lister (l : option MultihashLister) (prov : peerID)
    (contextID : bytes) (s : State) :
  run w (NotifyRemove e prov contextID) (setLister l s)
  = onState (setLister l) (run w (NotifyRemove e prov contextID) s).
Proof.
  unfold NotifyRemove. cbv zeta. apply run_setLister, removal_listerFree.
Qed.



(** X12.  [newPublisher] at its edges.  An unknown publisher kind is an
    error that names the kind.  For the two kinds that are known: with
    announce URLs and without a libp2p host, the identity of the host is
    asked before the host is checked, so [newPublisher] panics, and so
    does [Start]; without URLs and without a host, the constructor of
    the kind is called without any announce sender; with both, it is
    called with the HTTP sender and then the gossip sender.  What
    [newPublisher] returns from the constructor is a publisher that is
    not nil, also when the constructor returned an error with it. *)
Theorem newPublisher_edges (s : State) :
  let construct (senders : list Sender) : Publisher * option error :=
    match pubKind e with
    | HttpPublisher => httpsyncNewPublisher (pubHttpListenAddr e) (key e) senders
    | _ => if pubDT e
           then dtsyncNewPublisherFromExisting (h e) (pubTopicName e) senders
           else dtsyncNewPublisher (h e) (pubTopicName e) senders
    end in
  (forall name,
     pubKind e = OtherPublisherKind name ->
     run w (newPublisher e) s
     = Done (None, Some (ErrNew ("unknown publisher kind: " +:+ name))) s)
  /\ (pubKind e = DataTransferPublisher \/ pubKind e = HttpPublisher ->
      (h e = None -> announceURLs e <> [] ->
       run w (newPublisher e) s = Panicked s
       /\ (NewCachedEntriesChunker = None -> run w (Start e) s = Panicked s))
      /\ (h e = None -> announceURLs e = [] ->
          run w (newPublisher e) s = Done (Some (construct []).1, (construct []).2) s)
      /\ (forall host httpSender p2pSender,
            h e = Some host -> announceURLs e <> [] ->
            httpsenderNew (announceURLs e) (hostID host) = Ok httpSender ->
            p2psenderNew host (pubTopicName e) = Ok p2pSender ->
            run w (newPublisher e) s
            = Done (Some (construct [httpSender; p2pSender]).1,
                    (construct [httpSender; p2pSender]).2) s)).
Proof.
  intros construct. split.
  - intros name Hk. unfold newPublisher. rewrite Hk. reflexivity.
  - intros Hk. split; [| split].
    + intros Hh Hu.
      assert (run w (newPublisher e) s = Panicked s) as EP.
      { unfold newPublisher, panic. rewrite Hh.
        destruct (announceURLs e); [done |].
        destruct Hk as [-> | ->]; reflexivity. }
      split; [exact EP |]. intros Hc. unfold Start. by rewrite Hc, run_bind, EP.
    + intros Hh Hu. unfold newPublisher, construct, ifaceOf. rewrite Hh, Hu.
      destruct Hk as [Hk | Hk]; rewrite Hk; simpl; [| reflexivity].
      destruct (pubDT e); reflexivity.
    + intros host httpSender p2pSender Hh Hu Hs1 Hs2.
      unfold newPublisher, construct, ifaceOf. rewrite Hh, Hs1.
      destruct (announceURLs e); [done |].
      destruct Hk as [Hk | Hk]; rewrite Hk; simpl; rewrite Hs2; simpl; [| reflexivity].
      destruct (pubDT e); reflexivity.
Qed.

(** X13.  [PublishLatest] on an engine with a publisher calls
    [UpdateRoot] with the head and returns the head with what
    [UpdateRoot] returned; it writes nothing.  When nothing has been
    published it logs that announcing is skipped, and still calls
    [UpdateRoot], with [cid.Undef]. *)
Theorem PublishLatest_announces_head (s : State) (pub : Publisher) :
  publisher s = Some pub ->
  getFault w dsLatestAdvKey = None -> headReadable s ->
  exists s',
    run w PublishLatest s = Done (headCid s, pubUpdateRoot pub (headCid s)) s'
    /\ ds s' = ds s /\ blocks s' = blocks s
    /\ In (EvUpdateRoot (headCid s)) (newEvents s s')
    /\ (headCid s = CidUndef ->
        In (EvLog Info
              "Skipped announcing the latest: no previously published advertisements.")
           (newEvents s s')).
Proof.
  intros Hp Hg Hr. unfold PublishLatest, latestAdToPublish, getLatestAdCid, headCid, logMsg.
  simpl. rewrite Hp. simpl. rewrite Hg. simpl.
  destruct (ds s !! dsLatestAdvKey) as [b|] eqn:Eb; simpl.
  - destruct (Hr b Eb) as [c ->]. simpl.
    destruct (decide (c = CidUndef)) as [-> | Hc]; simpl; rewrite Hp; simpl.
    + destruct (pubUpdateRoot pub CidUndef); simpl;
        (eexists; split; [reflexivity |]; simpl; repeat split;
         erewrite newEvents_app with (evs := [_; _; _; _]) by reflexivity;
         simpl; auto).
    + destruct (pubUpdateRoot pub c); simpl;
        (eexists; split; [reflexivity |]; simpl; repeat split;
         erewrite ?newEvents_app with (evs := [_; _; _]) by reflexivity;
         simpl; auto; done).
  - rewrite Hp. simpl.
    destruct (pubUpdateRoot pub CidUndef); simpl;
      (eexists; split; [reflexivity |]; simpl; repeat split;
       erewrite newEvents_app with (evs := [_; _; _; _]) by reflexivity;
       simpl; auto).
Qed.

End Lifecycle.

Section Announcing.
Context `{Externals}.
Variables (e : options) (missing : error) (w : World).
Variable send : Sender -> Message -> option error.

(** X14.  [PublishLatestHTTP] on an engine without a publisher, of kind
    "none", with a context that is not done: it returns [cid.Undef] and a nil error, whatever the URLs
    and whatever the sender would answer; it does not panic, and writes
    nothing. *)
Theorem PublishLatestHTTP_without_publisher (s : State) (urls : list URL) :
  publisher s = None -> pubKind e = NoPublisher ->
  exists s', run w (PublishLatestHTTP e None send urls) s = Done (CidUndef, None) s'
             /\ ds s' = ds s /\ blocks s' = blocks s.
Proof.
  intros Hp Hk. unfold PublishLatestHTTP, httpAnnounce, latestAdToPublish, logMsg.
  simpl. rewrite Hp. simpl. rewrite Hk.
  destruct (length urls =? 0)%nat; simpl; eauto.
Qed.

(** X15.  [PublishLatestHTTP] on an engine with a publisher and a host
    sends one message to the given URLs, with the head and with the
    addresses of the host for the data-transfer publisher, and for the
    HTTP publisher the configured announce addresses when there are
    some, the addresses of the publisher otherwise; it returns the head
    with what the sender returned.  Without URLs, or with a context that
    is done, nothing is sent, and it returns the head with nil, or with
    the error of the context. *)
Theorem PublishLatestHTTP_addresses (s : State) (pub : Publisher) (host : Host)
    (urls : list URL) (sender : Sender) (ctxErr : option error) :
  publisher s = Some pub -> h e = Some host -> pubKind e <> NoPublisher ->
  getFault w dsLatestAdvKey = None -> headReadable s ->
  httpsenderNew urls (hostID host) = Ok sender ->
  exists s',
    run w (PublishLatestHTTP e ctxErr send urls) s
    = Done (headCid s,
            match ctxErr with
            | Some err => Some err
            | None =>
              match urls with
              | [] => None
              | _ => send sender (mkMessage (headCid s) (announcedAddrs e pub host))
              end
            end) s'
    /\ ds s' = ds s /\ blocks s' = blocks s.
Proof.
  intros Hp Hh Hk Hg Hr Hs.
  assert (exists s1, run w latestAdToPublish s = Done (headCid s, None) s1
                     /\ ds s1 = ds s /\ blocks s1 = blocks s
                     /\ publisher s1 = publisher s) as (s1 & E1 & Hd1 & Hb1 & Hp1).
  { unfold latestAdToPublish, getLatestAdCid, headCid, logMsg. simpl.
    rewrite Hp. simpl. rewrite Hg. simpl.
    destruct (ds s !! dsLatestAdvKey) as [b|] eqn:Eb; simpl.
    - destruct (Hr b Eb) as [c ->]. simpl.
      destruct (decide (c = CidUndef)) as [-> | Hc]; simpl; eauto.
    - eauto. }
  unfold PublishLatestHTTP. rewrite run_bind, E1. cbv beta iota. rewrite run_bind.
  unfold httpAnnounce, announcedAddrs, logMsg.
  destruct ctxErr as [err|]; simpl; [eauto |].
  destruct urls as [| u urls]; simpl; [eauto |].
  rewrite Hh.
  destruct (pubKind e) eqn:Ek; [done | | |]; simpl.
  - rewrite Hs. simpl. destruct (send sender _); simpl; eauto.
  - destruct (pubHttpAnnounceAddrs e) eqn:Ea; simpl.
    + rewrite Hp1, Hp. simpl. rewrite Hs. simpl. destruct (send sender _); simpl; eauto.
    + rewrite Hs. simpl. destruct (send sender _); simpl; eauto.
  - rewrite Hs. simpl. destruct (send sender _); simpl; eauto.
Qed.

End Announcing.

Section ChoiceOfClient.
Variable NewMultiaddr : string -> result Multiaddr.
Variable AddrInfosFromP2pAddrs : Multiaddr -> result (list AddrInfo).
Variable Protocols : Multiaddr -> list Z.
Variables P_HTTP P_HTTPS : Z.
Variable NewHttpProviderClient : AddrInfo -> option error.
Variable NewGraphSyncProviderClient : AddrInfo -> string -> Z -> option error.
Variable Sprintf : string -> Z -> string.

(** X16.  [toProviderClient] for an address whose first peer has a first
    address with the HTTP or the HTTPS protocol: the client is the HTTP
    one for that peer, or the error of its constructor, whatever the
    topic and the recursion limit are, an empty topic and a negative
    limit included. *)
Theorem toProviderClient_http_ignores_topic (addrStr topic : string) (limit : Z)
    (addr first : Multiaddr) (addrInfo : AddrInfo) (others : list AddrInfo)
    (more : list Multiaddr) :
  NewMultiaddr addrStr = Ok addr ->
  AddrInfosFromP2pAddrs addr = Ok (addrInfo :: others) ->
  aiAddrs addrInfo = first :: more ->
  In P_HTTP (Protocols first) \/ In P_HTTPS (Protocols first) ->
  toProviderClient NewMultiaddr AddrInfosFromP2pAddrs Protocols P_HTTP P_HTTPS
    NewHttpProviderClient NewGraphSyncProviderClient limit Sprintf addrStr topic
  = Returned match NewHttpProviderClient addrInfo with
             | Some err => (None, Some err)
             | None => (Some (HttpProviderClient addrInfo), None)
             end.
Proof.
  intros Ha Hi Hf Hp. unfold toProviderClient. rewrite Ha, Hi, Hf.
  destruct (existsb _ _) eqn:Ex; [done |].
  exfalso. apply Bool.not_true_iff_false in Ex. apply Ex.
  apply existsb_exists. destruct Hp as [Hp | Hp]; eexists; (split; [exact Hp |]).
  - rewrite Z.eqb_refl. done.
  - rewrite Z.eqb_refl. apply Bool.orb_true_r.
Qed.

(** X17.  [toProviderClient] for an address whose first peer has a first
    address with neither the HTTP nor the HTTPS protocol, whatever its
    other addresses are: it returns a client only for a topic that is
    not empty and a limit that is not negative, and then the graphsync
    one with that topic and limit; an empty topic is the error returned
    also when the limit is negative. *)
Theorem toProviderClient_graphsync_checks (addrStr topic : string) (limit : Z)
    (addr first : Multiaddr) (addrInfo : AddrInfo) (others : list AddrInfo)
    (more : list Multiaddr) :
  NewMultiaddr addrStr = Ok addr ->
  AddrInfosFromP2pAddrs addr = Ok (addrInfo :: others) ->
  aiAddrs addrInfo = first :: more ->
  ~ In P_HTTP (Protocols first) -> ~ In P_HTTPS (Protocols first) ->
  (topic = "" ->
   toProviderClient NewMultiaddr AddrInfosFromP2pAddrs Protocols P_HTTP P_HTTPS
    NewHttpProviderClient NewGraphSyncProviderClient limit Sprintf addrStr topic
   = Returned (None, Some (ErrNew "topic must be configured when graphsync endpoint is specified")))
  /\ (forall c err, toProviderClient NewMultiaddr AddrInfosFromP2pAddrs Protocols P_HTTP P_HTTPS
    NewHttpProviderClient NewGraphSyncProviderClient limit Sprintf addrStr topic = Returned (Some c, err) ->
                    topic <> "" /\ (0 <= limit)%Z /\ err = None
                    /\ c = GraphSyncProviderClient addrInfo topic limit
                    /\ NewGraphSyncProviderClient addrInfo topic limit = None)
  /\ (topic <> "" -> (0 <= limit)%Z ->
      NewGraphSyncProviderClient addrInfo topic limit = None ->
      toProviderClient NewMultiaddr AddrInfosFromP2pAddrs Protocols P_HTTP P_HTTPS
    NewHttpProviderClient NewGraphSyncProviderClient limit Sprintf addrStr topic
      = Returned (Some (GraphSyncProviderClient addrInfo topic limit), None)).
Proof.
  intros Ha Hi Hf Hn1 Hn2. unfold toProviderClient. rewrite Ha, Hi, Hf.
  assert (existsb (fun code => (code =? P_HTTP)%Z || (code =? P_HTTPS)%Z) (Protocols first)
          = false) as ->.
  { apply Bool.not_true_iff_false. intros Ex. apply existsb_exists in Ex.
    destruct Ex as (code & Hin & Hc). apply Bool.orb_true_iff in Hc.
    destruct Hc as [Hc | Hc]; apply Z.eqb_eq in Hc; subst; tauto. }
  split; [| split].
  - intros ->. done.
  - intros c err. destruct (decide (topic = "")); [done |].
    destruct (limit <? 0)%Z eqn:El; [done |]. apply Z.ltb_ge in El.
    destruct (NewGraphSyncProviderClient addrInfo topic limit); [done |].
    intros [= <- <-]. done.
  - intros Ht Hl Hc. destruct (decide (topic = "")); [done |].
    destruct (limit <? 0)%Z eqn:El; [apply Z.ltb_lt in El; lia |].
    by rewrite Hc.
Qed.

(** X18.  [toProviderClient] indexes without a check: for an address that
    parses to no peer, or whose first peer comes without an address, it
    does not return an error but stops with an index out of range,
    before the topic and the limit are looked at. *)
Theorem toProviderClient_index_out_of_range (addrStr topic : string) (limit : Z)
    (addr : Multiaddr) (addrInfos : list AddrInfo) :
  NewMultiaddr addrStr = Ok addr ->
  AddrInfosFromP2pAddrs addr = Ok addrInfos ->
  (toProviderClient NewMultiaddr AddrInfosFromP2pAddrs Protocols P_HTTP P_HTTPS
    NewHttpProviderClient NewGraphSyncProviderClient limit Sprintf addrStr topic = IndexOutOfRange
   <-> addrInfos = [] \/ exists a, head addrInfos = Some a /\ aiAddrs a = []).
Proof.
  intros Ha Hi. unfold toProviderClient. rewrite Ha, Hi.
  destruct addrInfos as [| a others]; simpl.
  - split; auto.
  - destruct (aiAddrs a) as [| first more] eqn:Ea.
    + split; [| done]. intros _. right. eauto.
    + split.
      * destruct (existsb _ _); [done |]. destruct (decide (topic = "")); [done |].
        destruct (limit <? 0)%Z; done.
      * intros [[=] | (a' & [= <-] & Hb)]. congruence.
Qed.

End ChoiceOfClient.

Section IndexMaps.
Context `{Externals}.
Variables (e : options) (w w2 : World).

(** X19.  The forward and the reverse index, written and read back.
    After [putKeyCidMap] of a provider, a context ID and a CID
    succeeded, [getKeyCidMap] of the provider and the context ID returns
    the CID, and [getCidKeyMap] of the CID returns the encoded provider
    and the context ID, or the provider of the engine when the encoding
    of the provider is empty; this for a CID without a row in the legacy
    index, whose two encodings are undone by their decoders. *)
Theorem putKeyCidMap_round_trip (s s' : State) (p : peerID) (contextID : bytes)
    (c : Cid) (pB : bytes) :
  keyToCidKey e p contextID <> cidToProviderAndKeyKey c ->
  cidToKeyKey c <> keyToCidKey e p contextID ->
  cidToKeyKey c <> cidToProviderAndKeyKey c ->
  ds s !! cidToKeyKey c = None ->
  CidFromBytes (CidBytes c) = Ok c ->
  PeerMarshal p = Ok pB ->
  (forall m, JsonMarshal (mkProviderAndContext pB contextID) = Ok m ->
             JsonUnmarshal m = Ok (mkProviderAndContext pB contextID)) ->
  getFault w2 (keyToCidKey e p contextID) = None ->
  getFault w2 (cidToKeyKey c) = None ->
  getFault w2 (cidToProviderAndKeyKey c) = None ->
  run w (putKeyCidMap e p contextID c) s = Done None s' ->
  (exists s1, run w2 (getKeyCidMap e p contextID) s' = Done (c, None) s1)
  /\ (exists s2,
        run w2 (getCidKeyMap e c) s'
        = Done (Some (mkProviderAndContext
                        (if (String.length pB =? 0)%nat then aiID (provider e) else pB)
                        contextID), None) s2).
Proof.
  intros Hk1 Hk2 Hk3 Hleg Hc Hp Hj Hg1 Hg2 Hg3 E.
  unfold putKeyCidMap in E. rewrite Hp in E.
  destruct (JsonMarshal (mkProviderAndContext pB contextID)) as [m |] eqn:Em.
  - invert_run E. inversion E; subst; clear E. split.
    + unfold getKeyCidMap. simpl. rewrite Hg1.
      rewrite lookup_insert_ne, lookup_insert_eq by congruence. simpl.
      rewrite Hc. simpl. eauto.
    + unfold getCidKeyMap. simpl. rewrite Hg2.
      rewrite !lookup_insert_ne, Hleg by congruence. simpl. rewrite Hg3.
      rewrite lookup_insert_eq. simpl. rewrite (Hj m eq_refl). simpl.
      destruct (String.length pB =? 0)%nat; simpl; eauto.
  - invert_run E.
Qed.

(** X20.  [deleteCidKeyMap] and the legacy index.  After it succeeded,
    [getCidKeyMap] of the CID finds nothing, in neither index.  When it
    failed, whichever of its two deletions did, a row of the legacy
    index for the CID is still there, and [getCidKeyMap] answers from
    it, with the provider of the engine. *)
Theorem deleteCidKeyMap_then_lookup (s s' : State) (c : Cid) (err : option error) :
  getFault w2 (cidToKeyKey c) = None ->
  getFault w2 (cidToProviderAndKeyKey c) = None ->
  run w (deleteCidKeyMap c) s = Done err s' ->
  (err = None ->
   exists s1, run w2 (getCidKeyMap e c) s' = Done (None, Some ErrNotFound) s1)
  /\ (forall val,
        err <> None -> cidToKeyKey c <> cidToProviderAndKeyKey c ->
        ds s !! cidToKeyKey c = Some val ->
        exists s1,
          run w2 (getCidKeyMap e c) s'
          = Done (Some (mkProviderAndContext (aiID (provider e)) val), None) s1).
Proof.
  intros Hg1 Hg2 E. unfold deleteCidKeyMap in E. simpl in E.
  destruct (deleteFault w (cidToProviderAndKeyKey c)) eqn:F1; simpl in E.
  - inversion E; subst; clear E. split; [intros [=] |].
    intros val _ Hk Hv. unfold getCidKeyMap. simpl. rewrite Hg1, Hv. simpl. eauto.
  - destruct (deleteFault w (cidToKeyKey c)) eqn:F2; simpl in E;
      inversion E; subst; clear E; simpl.
    + split; [intros [=] |].
      intros val _ Hk Hv. unfold getCidKeyMap. simpl. rewrite Hg1.
      rewrite lookup_delete_ne, Hv by congruence. simpl. eauto.
    + split; [intros _ | intros val Hn; done].
      unfold getCidKeyMap. simpl. rewrite Hg1, lookup_delete_eq. simpl.
      rewrite Hg2.
      destruct (decide (cidToKeyKey c = cidToProviderAndKeyKey c)) as [Heq | Hne].
      * rewrite Heq, lookup_delete_eq. simpl. eauto.
      * rewrite lookup_delete_ne, lookup_delete_eq by congruence. simpl. eauto.
Qed.

(** X21.  The metadata row, written and read back.  After
    [putKeyMetadataMap] succeeded, [getKeyMetadataMap] returns what the
    decoder makes of the encoding of the metadata put, which nothing
    validated: metadata equal to the one put when the metadata survives
    the round trip through its encoding, and the error of the decoder
    when the decoder refuses it.  After [deleteKeyMetadataMap] then
    succeeded, it returns [datastore.ErrNotFound], with the default
    metadata. *)
Theorem metadata_row_round_trip (s s' : State) (p : peerID) (contextID : bytes)
    (md : Metadata) :
  getFault w2 (keyToMetadataKey e p contextID) = None ->
  run w (putKeyMetadataMap e p contextID md) s = Done None s' ->
  (exists data s1,
     MetadataMarshalBinary md = Ok data
     /\ run w2 (getKeyMetadataMap e p contextID) s'
        = Done (MetadataUnmarshalBinary data) s1)
  /\ (metadataRoundTrips md ->
      exists md' s1, run w2 (getKeyMetadataMap e p contextID) s' = Done (md', None) s1
                     /\ MetadataEqual md md' = true)
  /\ (forall s'',
        run w (deleteKeyMetadataMap e p contextID) s' = Done None s'' ->
        exists s1, run w2 (getKeyMetadataMap e p contextID) s''
                   = Done (emptyMetadata, Some ErrNotFound) s1).
Proof.
  intros Hg E. unfold putKeyMetadataMap in E.
  destruct (MetadataMarshalBinary md) as [data |] eqn:Em; [| invert_run E].
  invert_run E. inversion E; subst; clear E.
  assert (exists s1, run w2 (getKeyMetadataMap e p contextID)
                         (setDs (<[keyToMetadataKey e p contextID := data]> (ds s))
                                (record (EvPut (keyToMetadataKey e p contextID) data) s))
                     = Done (MetadataUnmarshalBinary data) s1) as [s1 Eget].
  { unfold getKeyMetadataMap. simpl. rewrite Hg, lookup_insert_eq. simpl.
    destruct (MetadataUnmarshalBinary data) as [md' [err |]]; simpl; eauto. }
  split; [eauto | split].
  - intros Hmd. destruct (Hmd data Em) as (md' & Hu & Heq).
    exists md', s1. by rewrite Eget, Hu.
  - intros s'' E. unfold deleteKeyMetadataMap in E. invert_run E.
    inversion E; subst; clear E.
    unfold getKeyMetadataMap. simpl. rewrite Hg, lookup_delete_eq. simpl. eauto.
Qed.

End IndexMaps.

Section Registration.
Context `{Externals}.
Variables (e : options) (w : World).

(** X22.  The lister that a put for a new context consults is the one
    of the last [RegisterMultihashLister].  When a put for a context
    without a forward row succeeds after a registration, the registered
    lister gave multihashes for the provider and the context ID, the
    chunker took them, and the entries of the advertisement are the
    link of the chunker, or [NoEntries] when it gave none. *)
Theorem registered_lister_gives_entries (w0 : World) (s0 s s' : State)
    (l : MultihashLister) (p : peerID) (addrs : list Multiaddr) (contextID : bytes)
    (md : Metadata) (adCid : Cid) :
  run w0 (RegisterMultihashLister (Some l)) s0 = Done tt s ->
  getFault w (keyToCidKey e p contextID) = None ->
  ds s0 !! keyToCidKey e p contextID = None ->
  run w (publishAdvForIndex e p addrs contextID md false) s = Done (adCid, None) s' ->
  exists mhs lnk adv,
    l p contextID = Ok mhs /\ Chunk mhs = Ok lnk
    /\ blocks s' !! adCid = Some adv
    /\ Entries adv = default NoEntries lnk.
Proof.
  intros E0 Hg Hrow E.
  assert (mhLister s = Some l /\ ds s = ds s0) as [Hl Hds].
  { unfold RegisterMultihashLister, logMsg in E0. simpl in E0.
    destruct (cblk s0); simpl in E0; [discriminate |]. by inversion E0. }
  destruct (publish_reaches_finish e w _ _ _ _ _ _ _ _ E)
    as (c & err & s1 & s2 & cidsLnk & md' & E1 & E2 & E3).
  unfold getKeyCidMap in E1. simpl in E1. rewrite Hg, Hds, Hrow in E1. simpl in E1.
  injection E1 as <- <- <-. cbn [negb] in E2.
  pose proof (finish_run e w s2 p addrs contextID false cidsLnk md') as HF.
  rewrite E3 in HF. destruct HF as (adv & _ & _ & -> & Hb & _ & _ & Hen & _).
  unfold publishAdvForIndex_put, putKeyCidMap, putKeyMetadataMap, logMsg in E2.
  simpl in E2. rewrite Hl in E2. simpl in E2.
  destruct (l p contextID) as [mhs |] eqn:El; [| discriminate].
  destruct (Chunk mhs) as [lnk |] eqn:Ec; [| discriminate].
  exists mhs, lnk, adv. rewrite Hb, lookup_insert_eq.
  do 3 (split; [done |]). rewrite Hen. destruct lnk as [c |]; invert_run E2; by inversion E2.
Qed.

End Registration.

(** ** The properties at work on the concrete instance *)

#[local] Existing Instance Demo.externals.

Lemma Demo_linksRoundTrip : linksRoundTrip.
Proof. intros adv. split; [discriminate | reflexivity]. Qed.

Lemma Demo_headKeyApart (p : peerID) (contextID : bytes) :
  headKeyApart (Demo.opts NoPublisher) p contextID.
Proof.
  unfold headKeyApart, keyToCidKey, keyToMetadataKey, cidToProviderAndKeyKey,
    cidToKeyKey, dsLatestAdvKey.
  repeat split; try destruct (decide _); simpl; discriminate.
Qed.



Lemma noFaults_show : headFaultsShow noFaults.
Proof. intros err [=]. Qed.

Lemma publishAdvForIndex_unchanged_errors_witness :
  let e := Demo.opts NoPublisher in
  let unregistered := mkState ∅ ∅ None None false [] in
  (exists s', run noFaults (publishAdvForIndex e "12D3KooWme" [] "ctxA" Demo.md1 false)
                  unregistered
              = Done (CidUndef, Some ErrNoMultihashLister) s'
              /\ ds s' = ds unregistered /\ blocks s' = blocks unregistered)
  /\ (exists s', run noFaults (publishAdvForIndex e "12D3KooWme" [] "ctxA" Demo.md1 false)
                     (Demo.advertised None)
                 = Done (CidUndef, Some ErrAlreadyAdvertised) s'
                 /\ ds s' = ds (Demo.advertised None)
                 /\ blocks s' = blocks (Demo.advertised None))
  /\ (exists s', run noFaults (publishAdvForIndex e "12D3KooWme" [] "ctxA" Demo.md1 true)
                     (Demo.fresh None)
                 = Done (CidUndef, Some ErrContextIDNotFound) s'
                 /\ ds s' = ds (Demo.fresh None) /\ blocks s' = blocks (Demo.fresh None)).
Proof.
  intros e unregistered. split; [| split].
  - apply (proj1 (publishAdvForIndex_unchanged_errors e noFaults unregistered
                    "12D3KooWme" [] "ctxA" Demo.md1)).
    + split; reflexivity.
    + reflexivity.
  - apply (proj1 (proj2 (publishAdvForIndex_unchanged_errors e noFaults
                           (Demo.advertised None) "12D3KooWme" [] "ctxA" Demo.md1))
             (CidOf "chunk(1220aactxA,1220bbctxA)") Demo.md1).
    + split; [reflexivity |]. split; [discriminate |].
      exists "chunk(1220aactxA,1220bbctxA)". split; vm_compute; reflexivity.
    + split; [reflexivity |]. exists "bitswap". split; vm_compute; reflexivity.
    + reflexivity.
  - apply (proj2 (proj2 (publishAdvForIndex_unchanged_errors e noFaults (Demo.fresh None)
                           "12D3KooWme" [] "ctxA" Demo.md1))).
    split; reflexivity.
Defined.

Lemma write_path_takes_no_lock_witness :
  let e := Demo.opts NoPublisher in
  let published := match run noFaults (Publish e Demo.ad1) (Demo.advertised None) with
                   | Done _ s' | Panicked s' | Blocked s' => s'
                   end in
  (headCid (Demo.advertised None) = CidOf "ad(ctxA,bitswap,put,)"
   /\ exists adv, blocks (Demo.advertised None) !! CidOf "ad(ctxA,bitswap,put,)" = Some adv
                  /\ PreviousID adv = linkTo (headCid (Demo.fresh None)))
  /\ (headCid published = CidOf "ad(ctxC,bitswap,put,)"
      /\ blocks published !! CidOf "ad(ctxC,bitswap,put,)" = Some Demo.ad1).
Proof.
  intros e published. split.
  - apply (proj1 (proj2 (proj2 (proj2 (proj2
                   (write_path_takes_no_lock e noFaults (Demo.fresh None))))))
             "12D3KooWme" ["/ip4/10.0.0.1/tcp/4001"] "ctxA" Demo.md1 false).
    + exact Demo_linksRoundTrip.
    + exact noFaults_show.
    + apply Demo_headKeyApart.
    + vm_compute. reflexivity.
  - apply (proj2 (proj2 (proj2 (proj2 (proj2
                   (write_path_takes_no_lock e noFaults (Demo.advertised None))))))
             Demo.ad1 (CidOf "ad(ctxC,bitswap,put,)") published).
    + exact Demo_linksRoundTrip.
    + right. vm_compute. reflexivity.
Defined.

Lemma published_chained_witness :
  length (published (Demo.opts NoPublisher) Demo.calls (Demo.fresh None)) = 4
  /\ chained CidUndef (published (Demo.opts NoPublisher) Demo.calls (Demo.fresh None))
  /\ forall adCid adv rest,
       published (Demo.opts NoPublisher) Demo.calls (Demo.fresh None) = (adCid, adv) :: rest ->
       PreviousID adv = None.
Proof.
  split; [vm_compute; reflexivity |].
  assert (Forall (fun wc : World * call =>
                    headFaultsShow wc.1
                    /\ headKeyApart (Demo.opts NoPublisher)
                                    (subject (Demo.opts NoPublisher) wc.2).1
                                    (subject (Demo.opts NoPublisher) wc.2).2) Demo.calls)
    as Hcalls.
  { unfold Demo.calls.
    repeat (apply List.Forall_cons;
            [split; [intros err [=] | apply Demo_headKeyApart] |]).
    apply List.Forall_nil. }
  destruct (published_chained (Demo.opts NoPublisher) Demo.calls (Demo.fresh None)
              Demo_linksRoundTrip Hcalls) as [Hch Hgen].
  split; [exact Hch |]. apply Hgen. reflexivity.
Defined.

Lemma removal_deletes_index_rows_witness :
  let e := Demo.opts NoPublisher in
  let c := CidOf "chunk(1220aactxA,1220bbctxA)" in
  run noFaults (publishAdvForIndex e "12D3KooWme" [] "ctxA" [] true) (Demo.advertised None)
  = Done (CidOf "ad(ctxA,,rm,ad(ctxA,bitswap,put,))", None) Demo.removed
  /\ (forall k, In k (indexRows e "12D3KooWme" "ctxA" c) ->
                In (EvDelete k) (newEvents (Demo.advertised None) Demo.removed))
  /\ (forall k, In k (indexRows e "12D3KooWme" "ctxA" c) ->
                k <> dsLatestAdvKey -> ds Demo.removed !! k = None)
  /\ exists adv mdBytes,
       blocks Demo.removed !! CidOf "ad(ctxA,,rm,ad(ctxA,bitswap,put,))" = Some adv
       /\ Entries adv = NoEntries /\ IsRm adv = true
       /\ MetadataMarshalBinary emptyMetadata = Ok mdBytes
       /\ AdMetadata adv = mdBytes
       /\ AdValidate adv = None.
Proof.
  intros e c.
  assert (run noFaults (publishAdvForIndex e "12D3KooWme" [] "ctxA" [] true)
              (Demo.advertised None)
          = Done (CidOf "ad(ctxA,,rm,ad(ctxA,bitswap,put,))", None) Demo.removed) as E.
  { vm_compute. reflexivity. }
  split; [exact E |].
  apply (removal_deletes_index_rows e noFaults (Demo.advertised None) Demo.removed
           "12D3KooWme" [] "ctxA" [] c _); [| exact E].
  split; [reflexivity |]. split; [discriminate |].
  exists "chunk(1220aactxA,1220bbctxA)". split; vm_compute; reflexivity.
Defined.

Lemma Publish_swallows_announce_failure_witness :
  exists s', run noFaults (Publish (Demo.opts DataTransferPublisher) Demo.ad1)
                 (Demo.fresh (Some Demo.deafPublisher))
             = Done (CidOf "ad(ctxC,bitswap,put,)", None) s'
             /\ exists evs, trace s'
                            = (EvLog Error "Failed to announce advertisement" :: evs)%list.
Proof.
  eassert (run noFaults (PublishLocal Demo.ad1) (Demo.fresh (Some Demo.deafPublisher))
           = Done (CidOf "ad(ctxC,bitswap,put,)", None) _) as E by reflexivity.
  destruct (Publish_swallows_announce_failure (Demo.opts DataTransferPublisher) noFaults
              _ _ _ _ E) as (s' & Es & _ & _ & Hlog).
  exists s'. split; [exact Es |].
  apply (Hlog Demo.deafPublisher (ErrNew "no route to host")); reflexivity.
Defined.

Lemma PublishLatest_without_publisher_panics_witness :
  exists s1,
    run noFaults (Start (Demo.opts NoPublisher)) (Demo.fresh None) = Done None s1
    /\ publisher s1 = None
    /\ (exists s2, run noFaults latestAdToPublish s1 = Done (CidUndef, None) s2)
    /\ exists s3, run noFaults PublishLatest s1 = Panicked s3
                  /\ forall c, ~ In (EvUpdateRoot c) (newEvents s1 s3).
Proof.
  apply (PublishLatest_without_publisher_panics (Demo.opts NoPublisher) noFaults
           (Demo.fresh None)); reflexivity.
Defined.



Lemma Drain_signals_truncation_witness :
  exists it',
    Drain (entriesWithin 2 Demo.chain3)
    = (["1220aa"; "1220bb"; "1220cc"; "1220dd"], Some ErrNotFound, it')
    /\ ChunkCount it' = 2
    /\ forall ad printEntries,
         adEntries ad = entriesWithin 2 Demo.chain3 ->
         exists out,
           doGetAdvertisements (Ok ad) printEntries = (out, None)
           /\ In (LineChunkCount 2) out
           /\ In (LineTotalCount 4) out
           /\ In (LineText truncationNote) out
           /\ (printEntries = true ->
               forall mh, In mh ["1220aa"; "1220bb"; "1220cc"; "1220dd"] ->
                          In (LineEntry mh) out).
Proof.
  apply (Drain_signals_truncation 2 Demo.chain3). simpl. lia.
Defined.

Lemma failed_publish_is_not_rolled_back_witness :
  let e := Demo.opts NoPublisher in
  let c := CidOf "chunk(1220aactxA,1220bbctxA)" in
  (exists r err,
     run Demo.fullDisk (publishAdvForIndex e "12D3KooWme" [] "ctxA" [] true)
         (Demo.advertised None)
     = Done (r, Some err) Demo.halfRemoved)
  /\ (forall k, In k (indexRows e "12D3KooWme" "ctxA" c) -> ds Demo.halfRemoved !! k = None)
  /\ (exists s'', run noFaults (publishAdvForIndex e "12D3KooWme" [] "ctxA" [] true)
                      Demo.halfRemoved
                  = Done (CidUndef, Some ErrContextIDNotFound) s'')
  /\ (forall r err s',
        run Demo.fullDisk (publishAdvForIndex e "12D3KooWme" [] "ctxA" Demo.md1 false)
            (Demo.fresh None)
        = Done (r, Some err) s' ->
        In (EvPut "/map/keyCid/ctxA" "chunk(1220aactxA,1220bbctxA)")
           (newEvents (Demo.fresh None) s')
        -> is_Some (ds s' !! "/map/keyCid/ctxA")).
Proof.
  intros e c.
  set (err := Errorf "failed to publish advertisement locally: %w" true
                (Errorf "cannot generate advertisement link: %s" false
                   (ErrNew "no space left on device"))).
  assert (run Demo.fullDisk (publishAdvForIndex e "12D3KooWme" [] "ctxA" [] true)
              (Demo.advertised None)
          = Done (CidUndef, Some err) Demo.halfRemoved) as E.
  { vm_compute. reflexivity. }
  split; [by exists CidUndef, err |].
  assert (entriesCid e Demo.fullDisk (Demo.advertised None) "12D3KooWme" "ctxA" c) as He.
  { split; [reflexivity |]. split; [discriminate |].
    exists "chunk(1220aactxA,1220bbctxA)". split; vm_compute; reflexivity. }
  destruct (proj1 (failed_publish_is_not_rolled_back e Demo.fullDisk noFaults
                     (Demo.advertised None) Demo.halfRemoved
                     "12D3KooWme" [] "ctxA" [])
              c CidUndef err He (fun _ _ => eq_refl) E) as [Hrows Hretry].
  split; [exact Hrows |]. split; [by apply Hretry |].
  intros r err' s' E' Hin.
  apply (proj2 (failed_publish_is_not_rolled_back e Demo.fullDisk noFaults
                  (Demo.fresh None) s' "12D3KooWme" [] "ctxA" Demo.md1)
           r err' E' "/map/keyCid/ctxA" "chunk(1220aactxA,1220bbctxA)" Hin eq_refl).
Defined.

(** C2 fails on the code.  Two notifications of a put that overlap: the
    first reads the head, the second runs from its first action to its
    last, and the first goes on.  Both return their CID and a nil error,
    the mutex is never taken, and both advertisements are stored
    without a [PreviousID]: two successful calls, and a chain of one
    link under the head, which the other advertisement is not part of. *)
Lemma concurrent_puts_are_not_serialised :
  let e := Demo.opts NoPublisher in
  let '(pool, s) :=
    interleave noFaults [(0, 8); (1, 100); (0, 100)]
               [NotifyPut e None "ctxA" Demo.md1; NotifyPut e None "ctxB" Demo.md2]
               (Demo.fresh None) in
  pool = [Ret (CidOf "ad(ctxA,bitswap,put,)", None);
          Ret (CidOf "ad(ctxB,graphsync,put,)", None)]
  /\ ~ In EvLock (trace s)
  /\ PreviousID <$> blocks s !! CidOf "ad(ctxA,bitswap,put,)" = Some None
  /\ PreviousID <$> blocks s !! CidOf "ad(ctxB,graphsync,put,)" = Some None
  /\ headCid s = CidOf "ad(ctxA,bitswap,put,)".
Proof.
  vm_compute. repeat split. intuition discriminate.
Qed.

(** C3, where the code departs from it.  With the keys of go-datastore
    the forward row of the context ID "../../sync/adv" is the
    latest-head row, [/sync/adv].  After a put that succeeded, the
    removal of that context ID reads the head as the entries of the
    context, deletes the head row with the rows of the index, finds no
    head afterwards, and publishes an advertisement without
    [PreviousID]: both calls succeed, the head before the second one is
    the CID the first one returned, and the second advertisement is not
    linked to it. *)
Theorem chain_broken_by_key_collision :
  let e := Demo.opts NoPublisher in
  let put := CallNotifyPut None "ctxA" Demo.md1 in
  let removal := CallNotifyRemove "" "../../sync/adv" in
  let s1 := match @run Cleaned.externals noFaults _ (@perform Cleaned.externals e put)
                  (Demo.fresh None) with
            | Done _ s1 | Panicked s1 | Blocked s1 => s1
            end in
  let ads := @published Cleaned.externals e [(noFaults, put); (noFaults, removal)]
               (Demo.fresh None) in
  @keyToCidKey Cleaned.externals e "12D3KooWme" "../../sync/adv"
  = @dsLatestAdvKey Cleaned.externals
  /\ map fst ads = [CidOf "ad(ctxA,bitswap,put,)"; CidOf "ad(../../sync/adv,,rm,)"]
  /\ @headCid Cleaned.externals s1 = CidOf "ad(ctxA,bitswap,put,)"
  /\ map (fun ca => PreviousID ca.2) ads = [None; None]
  /\ ~ chained CidUndef ads.
Proof.
  intros e put removal s1 ads.
  assert (map fst ads = [CidOf "ad(ctxA,bitswap,put,)"; CidOf "ad(../../sync/adv,,rm,)"])
    as Hcids by (vm_compute; reflexivity).
  assert (map (fun ca => PreviousID ca.2) ads = [None; None])
    as Hprev by (vm_compute; reflexivity).
  split; [vm_compute; reflexivity |].
  split; [exact Hcids |].
  split; [vm_compute; reflexivity |].
  split; [exact Hprev |].
  clearbody ads.
  destruct ads as [| [c1 ad1] [| [c2 ad2] rest]]; try discriminate.
  cbn [map fst snd] in Hcids, Hprev.
  injection Hcids as -> _. injection Hprev as _ Hp2 _.
  intros (_ & Hc & _). rewrite Hp2 in Hc. discriminate.
Qed.

(** ** The further properties at work on the concrete instance *)

Lemma Demo_rowsApart (kind : PublisherKind) (p : peerID) (contextID : bytes) :
  rowsApart (Demo.opts kind) p contextID.
Proof.
  unfold rowsApart, keyToCidKey, keyToMetadataKey, cidToProviderAndKeyKey, dsLatestAdvKey.
  repeat split; try destruct (decide _); simpl; discriminate.
Qed.

Lemma Demo_entriesRoundTrip : entriesRoundTrip.
Proof.
  intros c [-> | [mhs Hc]]; [by split |].
  destruct mhs; simpl in Hc; [discriminate |]. injection Hc as <-. by split.
Qed.

Lemma Demo_metadataRoundTrips : metadataRoundTrips Demo.md1.
Proof. intros data [= <-]. by exists Demo.md1. Qed.

Lemma Demo_headReadable : headReadable (Demo.advertised (Some Demo.goodPublisher)).
Proof. intros b Hb. vm_compute in Hb. injection Hb as <-. by eexists. Qed.

Lemma GetLatestAdv_after_notification_witness :
  let e := Demo.opts NoPublisher in
  let missing := ErrNew "block not found" in
  let c := CidOf "ad(ctxA,graphsync,put,ad(ctxA,bitswap,put,))" in
  let s' := match run noFaults (NotifyPut e None "ctxA" Demo.md2) (Demo.advertised None) with
            | Done _ s' | Panicked s' | Blocked s' => s'
            end in
  exists adv s'',
    GetLatestAdv missing noFaults s' = Done (c, Some adv, None) s''
    /\ (GetAdv missing c s').1 = (Some adv, None)
    /\ PreviousID adv = linkTo (headCid (Demo.advertised None))
    /\ ds s'' = ds s' /\ blocks s'' = blocks s'.
Proof.
  intros e missing c s'.
  apply (GetLatestAdv_after_notification e missing noFaults noFaults
           (CallNotifyPut None "ctxA" Demo.md2) (Demo.advertised None) s' c).
  - exact Demo_linksRoundTrip.
  - exact noFaults_show.
  - apply Demo_headKeyApart.
  - reflexivity.
  - vm_compute. reflexivity.
Defined.


Lemma GetLatestAdv_without_advertisement_witness :
  let missing := ErrNew "block not found" in
  let dangling := mkState (<[dsLatestAdvKey := "ad(lost)"]> ∅) ∅ None None false [] in
  (exists s', GetLatestAdv missing noFaults (Demo.fresh None) = Done (CidUndef, None, None) s'
              /\ newEvents (Demo.fresh None) s'
                 = [EvLog Info "Getting latest advertisement"; EvGet dsLatestAdvKey])
  /\ (exists s',
        GetLatestAdv missing noFaults dangling
        = Done (CidUndef, None,
                Some (Errorf "count not get latest advertisement from blockstore by cid: %s"
                        false
                        (Errorf "cannot load advertisement from blockstore with vanilla linksystem: %s"
                           false missing))) s').
Proof.
  intros missing dangling. split.
  - apply (proj1 (@GetLatestAdv_without_advertisement Demo.externals missing noFaults (Demo.fresh None)
                    eq_refl)).
    reflexivity.
  - apply (proj2 (@GetLatestAdv_without_advertisement Demo.externals missing noFaults dangling eq_refl)
             "ad(lost)" (CidOf "ad(lost)")).
    + vm_compute. reflexivity.
    + reflexivity.
    + discriminate.
    + reflexivity.
Defined.

Lemma Publish_storage_failures_witness :
  let e := Demo.opts NoPublisher in
  let readOnly := mkWorld (fun _ => None) (fun _ => Some (ErrNew "read-only file system"))
                          (fun _ => None) (fun _ => None) in
  let s := Demo.advertised None in
  (exists err s', run readOnly (Publish e Demo.ad1) s = Done (CidUndef, Some err) s'
                  /\ errorsIs err (ErrNew "read-only file system") = true
                  /\ blocks s' !! LinkOf Demo.ad1 = Some Demo.ad1
                  /\ ds s' = ds s)
  /\ (exists err s', run Demo.fullDisk (Publish e Demo.ad1) s = Done (CidUndef, Some err) s'
                     /\ errorsIs err (ErrNew "no space left on device") = false
                     /\ blocks s' = blocks s /\ ds s' = ds s).
Proof.
  intros e readOnly s. split.
  - apply (proj1 (@Publish_storage_failures Demo.externals e readOnly s Demo.ad1
                    (ErrNew "read-only file system") eq_refl eq_refl)); reflexivity.
  - apply (proj2 (@Publish_storage_failures Demo.externals e Demo.fullDisk s Demo.ad1
                    (ErrNew "no space left on device") eq_refl eq_refl)); reflexivity.
Defined.

Lemma NotifyPut_twice_witness :
  let e := Demo.opts NoPublisher in
  let s' := Demo.advertised None in
  exists s'', run noFaults (NotifyPut e None "ctxA" Demo.md1) s'
              = Done (CidUndef, Some ErrAlreadyAdvertised) s''
              /\ ds s'' = ds s' /\ blocks s'' = blocks s'.
Proof.
  intros e s'.
  apply (NotifyPut_twice e noFaults noFaults (Demo.fresh None) s' None "ctxA" Demo.md1
           (CidOf "ad(ctxA,bitswap,put,)")).
  - apply Demo_rowsApart.
  - exact Demo_entriesRoundTrip.
  - exact Demo_metadataRoundTrips.
  - reflexivity.
  - reflexivity.
  - vm_compute. reflexivity.
Defined.


Lemma context_is_unknown_after_removal_witness :
  let e := Demo.opts NoPublisher in
  let unregistered := setLister None Demo.removed in
  ds unregistered !! keyToCidKey e "12D3KooWme" "ctxA" = None
  /\ (exists s'', run noFaults (publishAdvForIndex e "12D3KooWme" [] "ctxA" emptyMetadata true)
                      unregistered
                  = Done (CidUndef, Some ErrContextIDNotFound) s'')
  /\ (exists s'', run noFaults (publishAdvForIndex e "12D3KooWme" [] "ctxA" Demo.md1 false)
                      unregistered
                  = Done (CidUndef, Some ErrNoMultihashLister) s'').
Proof.
  intros e unregistered.
  cut (ds unregistered !! keyToCidKey e "12D3KooWme" "ctxA" = None
       /\ (forall addrs2 md2,
             exists s'', run noFaults (publishAdvForIndex e "12D3KooWme" addrs2 "ctxA" md2 true)
                             unregistered
                         = Done (CidUndef, Some ErrContextIDNotFound) s'')
       /\ (forall addrs2 md2,
             mhLister unregistered = None ->
             exists s'', run noFaults (publishAdvForIndex e "12D3KooWme" addrs2 "ctxA" md2 false)
                             unregistered
                         = Done (CidUndef, Some ErrNoMultihashLister) s'')).
  { intros (H1 & H2 & H3). split; [exact H1 |]. split; [apply H2 |]. apply H3. reflexivity. }
  apply (context_is_unknown_after_removal e noFaults noFaults
           (setLister None (Demo.advertised None)) unregistered "12D3KooWme" [] "ctxA"
           emptyMetadata (CidOf "chunk(1220aactxA,1220bbctxA)")
           (CidOf "ad(ctxA,,rm,ad(ctxA,bitswap,put,))")).
  - split; [reflexivity |]. split; [discriminate |].
    exists "chunk(1220aactxA,1220bbctxA)". split; vm_compute; reflexivity.
  - apply Demo_rowsApart.
  - reflexivity.
  - vm_compute. reflexivity.
Defined.

Lemma forward_index_failure_is_returned_witness :
  let e := Demo.opts NoPublisher in
  let s := Demo.advertised None in
  exists s',
    run Demo.unplugged (publishAdvForIndex e "12D3KooWme" [] "ctxA" Demo.md2 false) s
    = Done (CidUndef,
            Some (Errorf "cound not not get entries cid by provider + context id: %s"
                         false (ErrNew "i/o timeout"))) s'
    /\ newEvents s s' = [EvGet (keyToCidKey e "12D3KooWme" "ctxA")]
    /\ ds s' = ds s /\ blocks s' = blocks s.
Proof.
  intros e s.
  apply (forward_index_failure_is_returned e Demo.unplugged s "12D3KooWme" [] "ctxA"
           Demo.md2 false (ErrNew "i/o timeout")).
  - discriminate.
  - left. reflexivity.
Defined.

Lemma notification_advertisement_witness :
  let e := Demo.opts NoPublisher in
  let adCid := CidOf "ad(ctxA,,rm,ad(ctxA,bitswap,put,))" in
  exists prev sig entries data,
    let unsigned :=
      mkAdvertisement prev "12D3KooWme" [] "" entries "ctxA" data true in
    blocks Demo.removed !! adCid = Some (withSignature unsigned sig)
    /\ AdSign unsigned (key e) = Ok sig
    /\ AdValidate (withSignature unsigned sig) = None
    /\ MetadataMarshalBinary emptyMetadata = Ok data
    /\ entries = NoEntries.
Proof.
  intros e adCid.
  refine (@notification_advertisement Demo.externals e noFaults (CallNotifyRemove "" "ctxA")
            (Demo.advertised None) Demo.removed adCid _).
  vm_compute. reflexivity.
Defined.


Lemma newPublisher_edges_witness :
  let unknown := Demo.opts (OtherPublisherKind "carrier pigeon") in
  let hostless (urls : list URL) :=
    mkOptions "k1" Demo.me None HttpPublisher [] "0.0.0.0:3104" "/indexer/ingest/mainnet"
              false urls in
  let announcing :=
    mkOptions "k1" Demo.me (Some (mkHost "12D3KooWme" ["/ip4/10.0.0.1/tcp/4001"]))
              DataTransferPublisher [] "0.0.0.0:3104" "/indexer/ingest/mainnet" false
              ["https://cid.contact/announce"] in
  let s := Demo.fresh None in
  run noFaults (newPublisher unknown) s
  = Done (None, Some (ErrNew "unknown publisher kind: carrier pigeon")) s
  /\ (run noFaults (newPublisher (hostless ["https://cid.contact/announce"])) s = Panicked s
      /\ run noFaults (Start (hostless ["https://cid.contact/announce"])) s = Panicked s)
  /\ run noFaults (newPublisher (hostless [])) s
     = Done (Some (httpsyncNewPublisher "0.0.0.0:3104" "k1" []).1,
             (httpsyncNewPublisher "0.0.0.0:3104" "k1" []).2) s
  /\ run noFaults (newPublisher announcing) s
     = Done (Some (dtsyncNewPublisher
                     (Some (mkHost "12D3KooWme" ["/ip4/10.0.0.1/tcp/4001"]))
                     "/indexer/ingest/mainnet"
                     [HttpSender ["https://cid.contact/announce"] "12D3KooWme";
                      P2pSender "/indexer/ingest/mainnet"]).1, None) s.
Proof.
  intros unknown hostless announcing s. split; [| split; [| split]].
  - apply (proj1 (@newPublisher_edges Demo.externals unknown noFaults s)
             "carrier pigeon" eq_refl).
  - destruct (proj1 (proj2 (@newPublisher_edges Demo.externals
                              (hostless ["https://cid.contact/announce"]) noFaults s)
                       (or_intror eq_refl)) eq_refl) as [EP ES]; [discriminate |].
    split; [exact EP |]. apply ES. reflexivity.
  - apply (proj1 (proj2 (proj2 (@newPublisher_edges Demo.externals (hostless [])
                                  noFaults s)
                           (or_intror eq_refl))) eq_refl eq_refl).
  - apply (proj2 (proj2 (proj2 (@newPublisher_edges Demo.externals announcing noFaults s)
                           (or_introl eq_refl)))
             (mkHost "12D3KooWme" ["/ip4/10.0.0.1/tcp/4001"])
             (HttpSender ["https://cid.contact/announce"] "12D3KooWme")
             (P2pSender "/indexer/ingest/mainnet")); try reflexivity.
    discriminate.
Defined.

Lemma PublishLatest_announces_head_witness :
  let s := Demo.advertised (Some Demo.deafPublisher) in
  exists s',
    run noFaults PublishLatest s
    = Done (CidOf "ad(ctxA,bitswap,put,)", Some (ErrNew "no route to host")) s'
    /\ ds s' = ds s /\ blocks s' = blocks s
    /\ In (EvUpdateRoot (headCid s)) (newEvents s s').
Proof.
  intros s.
  destruct (@PublishLatest_announces_head Demo.externals noFaults s Demo.deafPublisher)
    as (s' & E & Hd & Hb & Hin & _).
  - reflexivity.
  - reflexivity.
  - intros b Hb. vm_compute in Hb. injection Hb as <-. by eexists.
  - exists s'. by repeat split.
Defined.

Lemma PublishLatestHTTP_without_publisher_witness :
  let e := Demo.opts NoPublisher in
  let s := Demo.advertised None in
  let send := fun (_ : Sender) (_ : Message) => Some (ErrNew "no route to host") in
  exists s', run noFaults (PublishLatestHTTP e None send ["https://cid.contact/announce"]) s
             = Done (CidUndef, None) s'
             /\ ds s' = ds s /\ blocks s' = blocks s.
Proof.
  intros e s send.
  apply (@PublishLatestHTTP_without_publisher Demo.externals e noFaults send s
           ["https://cid.contact/announce"]); reflexivity.
Defined.

Lemma PublishLatestHTTP_addresses_witness :
  let e := mkOptions "k1" Demo.me (Some (mkHost "12D3KooWme" ["/ip4/10.0.0.1/tcp/4001"]))
                     HttpPublisher ["/dns4/provider.example/tcp/443/https"] "0.0.0.0:3104"
                     "/indexer/ingest/mainnet" false [] in
  let s := Demo.advertised (Some Demo.goodPublisher) in
  let urls := ["https://cid.contact/announce"] in
  let send := fun (_ : Sender) (m : Message) =>
                if decide (msgAddrs m = ["/dns4/provider.example/tcp/443/https"])
                then None else Some (ErrNew "unexpected addresses") in
  exists s',
    run noFaults (PublishLatestHTTP e None send urls) s
    = Done (CidOf "ad(ctxA,bitswap,put,)", None) s'
    /\ ds s' = ds s /\ blocks s' = blocks s.
Proof.
  intros e s urls send.
  apply (@PublishLatestHTTP_addresses Demo.externals e noFaults send s Demo.goodPublisher
           (mkHost "12D3KooWme" ["/ip4/10.0.0.1/tcp/4001"]) urls
           (HttpSender urls "12D3KooWme") None).
  - reflexivity.
  - reflexivity.
  - discriminate.
  - reflexivity.
  - exact Demo_headReadable.
  - reflexivity.
Defined.

Lemma toProviderClient_http_ignores_topic_witness :
  let protocols := fun a : Multiaddr =>
                     if decide (a = "/dns4/provider.example/tcp/443/https")
                     then [54; 6; 443]%Z else [4; 6]%Z in
  let peers := fun a : Multiaddr => Ok [mkAddrInfo "12D3KooWme" [a]] in
  toProviderClient Ok peers protocols 480 443 (fun _ => None) (fun _ _ _ => None)
                   (-1) (fun f _ => f) "/dns4/provider.example/tcp/443/https" ""
  = Returned (Some (HttpProviderClient
                      (mkAddrInfo "12D3KooWme" ["/dns4/provider.example/tcp/443/https"])),
              None).
Proof.
  intros protocols peers.
  apply (toProviderClient_http_ignores_topic Ok peers protocols 480 443 (fun _ => None)
           (fun _ _ _ => None) (fun f _ => f) "/dns4/provider.example/tcp/443/https" ""
           (-1) "/dns4/provider.example/tcp/443/https"
           "/dns4/provider.example/tcp/443/https"
           (mkAddrInfo "12D3KooWme" ["/dns4/provider.example/tcp/443/https"]) [] []).
  - reflexivity.
  - reflexivity.
  - reflexivity.
  - right. vm_compute. tauto.
Defined.

Lemma toProviderClient_graphsync_checks_witness :
  let protocols := fun a : Multiaddr =>
                     if decide (a = "/dns4/provider.example/tcp/443/https")
                     then [54; 6; 443]%Z else [4; 6]%Z in
  let peers := fun a : Multiaddr => Ok [mkAddrInfo "12D3KooWme" [a]] in
  let client := toProviderClient Ok peers protocols 480 443 (fun _ => None)
                                 (fun _ _ _ => None) in
  client (-1)%Z (fun f _ => f) "/ip4/10.0.0.1/tcp/4001" ""
  = Returned (None, Some (ErrNew "topic must be configured when graphsync endpoint is specified"))
  /\ client 5%Z (fun f _ => f) "/ip4/10.0.0.1/tcp/4001" "/indexer/ingest/mainnet"
     = Returned (Some (GraphSyncProviderClient
                         (mkAddrInfo "12D3KooWme" ["/ip4/10.0.0.1/tcp/4001"])
                         "/indexer/ingest/mainnet" 5), None).
Proof.
  intros protocols peers client. split.
  - apply (proj1 (toProviderClient_graphsync_checks Ok peers protocols 480 443
                    (fun _ => None) (fun _ _ _ => None) (fun f _ => f)
                    "/ip4/10.0.0.1/tcp/4001" "" (-1) "/ip4/10.0.0.1/tcp/4001"
                    "/ip4/10.0.0.1/tcp/4001"
                    (mkAddrInfo "12D3KooWme" ["/ip4/10.0.0.1/tcp/4001"]) [] []
                    eq_refl eq_refl eq_refl
                    ltac:(vm_compute; intuition discriminate)
                    ltac:(vm_compute; intuition discriminate))).
    reflexivity.
  - apply (proj2 (proj2 (toProviderClient_graphsync_checks Ok peers protocols 480 443
                           (fun _ => None) (fun _ _ _ => None) (fun f _ => f)
                           "/ip4/10.0.0.1/tcp/4001" "/indexer/ingest/mainnet" 5
                           "/ip4/10.0.0.1/tcp/4001" "/ip4/10.0.0.1/tcp/4001"
                           (mkAddrInfo "12D3KooWme" ["/ip4/10.0.0.1/tcp/4001"]) [] []
                           eq_refl eq_refl eq_refl
                           ltac:(vm_compute; intuition discriminate)
                           ltac:(vm_compute; intuition discriminate)))).
    + discriminate.
    + lia.
    + reflexivity.
Defined.

Lemma toProviderClient_index_out_of_range_witness :
  let bare := fun _ : Multiaddr => Ok [mkAddrInfo "12D3KooWme" []] in
  toProviderClient Ok bare (fun _ => []) 480 443 (fun _ => None) (fun _ _ _ => None)
                   5 (fun f _ => f) "/p2p/12D3KooWme" "/indexer/ingest/mainnet"
  = IndexOutOfRange.
Proof.
  intros bare.
  apply (toProviderClient_index_out_of_range Ok bare (fun _ => []) 480 443 (fun _ => None)
           (fun _ _ _ => None) (fun f _ => f) "/p2p/12D3KooWme" "/indexer/ingest/mainnet" 5
           "/p2p/12D3KooWme" [mkAddrInfo "12D3KooWme" []] eq_refl eq_refl).
  right. by eexists.
Defined.

Lemma putKeyCidMap_round_trip_witness :
  let e := Demo.opts NoPublisher in
  let c := CidOf "chunk(1220aactxB,1220bbctxB)" in
  let s' := match run noFaults (putKeyCidMap e "12D3KooWother" "ctxB" c) (Demo.advertised None) with
            | Done _ s' | Panicked s' | Blocked s' => s'
            end in
  (exists s1, run noFaults (getKeyCidMap e "12D3KooWother" "ctxB") s' = Done (c, None) s1)
  /\ (exists s2,
        run noFaults (getCidKeyMap e c) s'
        = Done (Some (mkProviderAndContext "12D3KooWother" "ctxB"), None) s2).
Proof.
  intros e c s'.
  refine (@putKeyCidMap_round_trip Demo.externals e noFaults noFaults (Demo.advertised None)
            s' "12D3KooWother" "ctxB" c "12D3KooWother" _ _ _ _ _ _ _ _ _ _ _).
  - discriminate.
  - discriminate.
  - discriminate.
  - vm_compute. reflexivity.
  - reflexivity.
  - reflexivity.
  - intros m [= <-]. vm_compute. reflexivity.
  - reflexivity.
  - reflexivity.
  - reflexivity.
  - vm_compute. reflexivity.
Defined.

Lemma deleteCidKeyMap_then_lookup_witness :
  let e := Demo.opts NoPublisher in
  let stuck := mkWorld (fun _ => None) (fun _ => None)
                       (fun k => if decide (k = cidToKeyKey (CidOf "old"))
                                 then Some (ErrNew "read-only file system") else None)
                       (fun _ => None) in
  let after (w : World) := match run w (deleteCidKeyMap (CidOf "old")) Demo.migrating with
                           | Done _ s' | Panicked s' | Blocked s' => s'
                           end in
  (exists s1, run noFaults (getCidKeyMap e (CidOf "old")) (after noFaults)
              = Done (None, Some ErrNotFound) s1)
  /\ (exists s1, run noFaults (getCidKeyMap e (CidOf "old")) (after stuck)
                 = Done (Some (mkProviderAndContext "12D3KooWme" "ctxOld"), None) s1).
Proof.
  intros e stuck after. split.
  - refine (proj1 (@deleteCidKeyMap_then_lookup Demo.externals e noFaults noFaults
                     Demo.migrating (after noFaults) (CidOf "old") None _ _ _) eq_refl).
    + reflexivity.
    + reflexivity.
    + vm_compute. reflexivity.
  - refine (proj2 (@deleteCidKeyMap_then_lookup Demo.externals e stuck noFaults
                     Demo.migrating (after stuck) (CidOf "old")
                     (Some (ErrNew "read-only file system")) _ _ _) "ctxOld" _ _ _).
    + reflexivity.
    + reflexivity.
    + vm_compute. reflexivity.
    + discriminate.
    + discriminate.
    + vm_compute. reflexivity.
Defined.

Lemma metadata_row_round_trip_witness :
  let e := Demo.opts NoPublisher in
  let s' := match run noFaults (putKeyMetadataMap e "12D3KooWme" "ctxB" Demo.md1)
                    (Demo.fresh None) with
            | Done _ s' | Panicked s' | Blocked s' => s'
            end in
  let s'' := match run noFaults (deleteKeyMetadataMap e "12D3KooWme" "ctxB") s' with
             | Done _ s'' | Panicked s'' | Blocked s'' => s''
             end in
  (exists data s1,
     MetadataMarshalBinary Demo.md1 = Ok data
     /\ run noFaults (getKeyMetadataMap e "12D3KooWme" "ctxB") s'
        = Done (MetadataUnmarshalBinary data) s1)
  /\ (exists md' s1, run noFaults (getKeyMetadataMap e "12D3KooWme" "ctxB") s' = Done (md', None) s1
                     /\ MetadataEqual Demo.md1 md' = true)
  /\ (exists s1, run noFaults (getKeyMetadataMap e "12D3KooWme" "ctxB") s''
                 = Done (emptyMetadata, Some ErrNotFound) s1).
Proof.
  intros e s' s''.
  destruct (@metadata_row_round_trip Demo.externals e noFaults noFaults (Demo.fresh None) s'
              "12D3KooWme" "ctxB" Demo.md1 eq_refl eq_refl)
    as (H1 & H2 & H3).
  split; [exact H1 |]. split; [exact (H2 Demo_metadataRoundTrips) |].
  apply H3. reflexivity.
Defined.

Lemma registered_lister_gives_entries_witness :
  let e := Demo.opts NoPublisher in
  let s0 := mkState ∅ ∅ None None false [] in
  let s := match run noFaults (RegisterMultihashLister (Some Demo.lister)) s0 with
           | Done _ s | Panicked s | Blocked s => s
           end in
  let s' := match run noFaults (publishAdvForIndex e "12D3KooWme" [] "ctxA" Demo.md1 false) s with
            | Done _ s' | Panicked s' | Blocked s' => s'
            end in
  exists mhs lnk adv,
    Demo.lister "12D3KooWme" "ctxA" = Ok mhs /\ Chunk mhs = Ok lnk
    /\ blocks s' !! CidOf "ad(ctxA,bitswap,put,)" = Some adv
    /\ Entries adv = default NoEntries lnk.
Proof.
  intros e s0 s s'.
  refine (@registered_lister_gives_entries Demo.externals e noFaults noFaults s0 s s'
            Demo.lister "12D3KooWme" [] "ctxA" Demo.md1 (CidOf "ad(ctxA,bitswap,put,)")
            _ _ _ _).
  - vm_compute. reflexivity.
  - reflexivity.
  - reflexivity.
  - vm_compute. reflexivity.
Defined.
